(** * Tritech Micron CSV to LaserScan and PointCloud

    A shallow embedding of [scripts/csv_to_pointcloud.py]: the slice
    parser ([Slice.__init__]), the scan aggregator ([Scan.add],
    [Scan.full]) and the projections ([Scan.to_laser_scan],
    [Scan.to_pointcloud]).

    The script is Python 2: [/] on two [int]s is floor division, [map]
    returns a list.  Python [int]s are [Z]; Python [float]s are the
    binary64 numbers of [PrimFloat], with the same rounding as the
    interpreter's; exceptions are an explicit [result]. *)

From Stdlib Require Import String.
From Stdlib Require Import ZArith List Bool Lia Floats.
From Stdlib Require Import Sorting.Sorted Sorting.Permutation.
Import ListNotations.
Open Scope Z_scope.

(** ** The pieces of the Python runtime the script relies on *)

Module Py.

Inductive exn : Set :=
| ZeroDivisionError
| ValueError
| OverflowError
| IndexError
| TypeError.

Inductive result (A : Type) : Type :=
| Ok (a : A)
| Raise (e : exn).
Arguments Ok {A} a.
Arguments Raise {A} e.

Definition bind {A B : Type} (r : result A) (k : A -> result B) : result B :=
  match r with
  | Ok a => k a
  | Raise e => Raise e
  end.

(** [float(n)] and the implicit coercion of an [int] operand of a float
    operation: the nearest binary64 number.  (Python raises
    [OverflowError] where this is infinite, which takes an integer
    beyond [2^1023]; the fields of a sonar log are 8 and 16 bit.) *)
Definition float_of_int (z : Z) : float :=
  SF2Prim (binary_normalize prec emax z 0 false).

(** [a / b] on floats: division by a zero of either sign raises. *)
Definition fdiv (a b : float) : result float :=
  if is_zero b then Raise ZeroDivisionError else Ok (a / b)%float.

(** The exact integer value [(-1)^s * m * 2^e] rounded by the quotient
    [quo], which is [Z.quot] for truncation and [Z.div] for floor. *)
Definition round_with (quo : Z -> Z -> Z) (s : bool) (m : positive) (e : Z) : Z :=
  let v := if s then Z.neg m else Z.pos m in
  if 0 <=? e then v * 2 ^ e else quo v (2 ^ (- e)).

(** [int(x)]: truncation toward zero; [ValueError] on a NaN,
    [OverflowError] on an infinity. *)
Definition int_of_float (x : float) : result Z :=
  match Prim2SF x with
  | S754_zero _ => Ok 0
  | S754_finite s m e => Ok (round_with Z.quot s m e)
  | S754_infinity _ => Raise OverflowError
  | S754_nan => Raise ValueError
  end.

(** [math.floor(x)] as an integer, with the same exceptions; used only
    to state what the specification asks for. *)
Definition floor_of_float (x : float) : result Z :=
  match Prim2SF x with
  | S754_zero _ => Ok 0
  | S754_finite s m e => Ok (round_with Z.div s m e)
  | S754_infinity _ => Raise OverflowError
  | S754_nan => Raise ValueError
  end.

(** [n > x] for an [int] [n] and a [float] [x]: Python compares the
    exact values, and every comparison with a NaN is false. *)
Definition int_gt_float (n : Z) (x : float) : bool :=
  match Prim2SF x with
  | S754_zero _ => 0 <? n
  | S754_infinity s => s
  | S754_nan => false
  | S754_finite s m e =>
      let v := if s then Z.neg m else Z.pos m in
      if 0 <=? e then v * 2 ^ e <? n else v <? n * 2 ^ (- e)
  end.

Definition len {A : Type} (l : list A) : Z := Z.of_nat (length l).

(** Resolution of a subscript: a negative index counts from the end. *)
Definition resolve (n i : Z) : result nat :=
  let j := if i <? 0 then i + n else i in
  if (0 <=? j) && (j <? n) then Ok (Z.to_nat j) else Raise IndexError.

Fixpoint update {A : Type} (l : list A) (k : nat) (v : A) : list A :=
  match l, k with
  | [], _ => []
  | _ :: r, O => v :: r
  | x :: r, S k' => x :: update r k' v
  end.

(** [l[i]] *)
Definition getitem {A : Type} (d : A) (l : list A) (i : Z) : result A :=
  bind (resolve (len l) i) (fun k => Ok (nth k l d)).

(** [l[i] = v] *)
Definition setitem {A : Type} (l : list A) (i : Z) (v : A) : result (list A) :=
  bind (resolve (len l) i) (fun k => Ok (update l k v)).

(** [l[start:]] *)
Definition slice_from {A : Type} (start : Z) (l : list A) : list A :=
  let n := len l in
  let b := if start <? 0 then Z.max 0 (start + n) else Z.min start n in
  skipn (Z.to_nat b) l.

(** [enumerate(l)], counting from [i] *)
Fixpoint enumerate_from {A : Type} (i : Z) (l : list A) : list (Z * A) :=
  match l with
  | [] => []
  | x :: r => (i, x) :: enumerate_from (i + 1) r
  end.

Definition enumerate {A : Type} (l : list A) : list (Z * A) := enumerate_from 0 l.

(** [range(a, b)] *)
Definition range (a b : Z) : list Z :=
  map (fun k => a + Z.of_nat k) (seq 0 (Z.to_nat (b - a))).

(** [numpy.argmax] on a list of integers: the first position of the
    maximum; [ValueError] on an empty sequence. *)
Fixpoint argmax_from (best_i best i : Z) (l : list Z) : Z :=
  match l with
  | [] => best_i
  | x :: r =>
      if best <? x then argmax_from i x (i + 1) r
      else argmax_from best_i best (i + 1) r
  end.

Definition argmax (l : list Z) : result Z :=
  match l with
  | [] => Raise ValueError
  | x :: r => Ok (argmax_from 0 x 1 r)
  end.

(** [sorted(l, key=key)]: the stable sort, by insertion. *)
Fixpoint insert_by {A : Type} (key : A -> Z) (x : A) (l : list A) : list A :=
  match l with
  | [] => [x]
  | y :: r => if key x <=? key y then x :: y :: r else y :: insert_by key x r
  end.

Fixpoint sorted {A : Type} (key : A -> Z) (l : list A) : list A :=
  match l with
  | [] => []
  | x :: r => insert_by key x (sorted key r)
  end.

End Py.

Import Py.

Notation "x <- c1 ;; c2" := (Py.bind c1 (fun x => c2))
  (at level 61, c1 at next level, right associativity).

(** ** ROS messages

    [rospy.Time] values are counted in nanoseconds; [rospy.get_rostime()]
    reads a clock outside the program, so its value is an argument [now]
    of the operations that call it. *)

Record Point32 : Set := { x : float; y : float; z : float }.

Record ChannelFloat32 : Set := { name : String.string; values : list Z }.

Module PointCloud.
Record t : Set := {
  frame_id : String.string;
  stamp : Z;
  points : list Point32;
  channels : list ChannelFloat32 }.
End PointCloud.

Module LaserScan.
Record t : Set := {
  frame_id : String.string;
  stamp : Z;
  angle_min : float;
  angle_max : float;
  angle_increment : float;
  time_increment : float;
  scan_time : float;
  range_min : float;
  range_max : option float;
  ranges : list float;
  intensities : list Z }.
End LaserScan.

(** [np.pi] *)
Definition np_pi : float := 0x1.921fb54442d18p+1%float.

Definition sonar_angle_to_rad (angle : Z) : float :=
  (float_of_int angle * np_pi / 3200)%float.

(** ** One row of the CSV log

    The columns of a row after the conversions of lines 47-62 ([str],
    [int], [float], [strptime]); a [timestamp] is a time of day, counted
    in microseconds since midnight (the format has no date). *)

Module Row.
Record t : Set := {
  sof : String.string;
  timestamp : Z;
  node : Z;
  status : Z;
  hdctrl : Z;
  range : float;
  gain : Z;
  slope : Z;
  ad_low : Z;
  ad_span : Z;
  left_limit : Z;
  right_limit : Z;
  steps : Z;
  heading : Z;
  num_bins : Z;
  data : list Z }.
End Row.

(** ** Scan slice *)

Module Slice.

Record t : Set := {
  sof : String.string;
  timestamp : Z;
  node : Z;
  status : Z;
  hdctrl : Z;
  range : float;
  gain : Z;
  slope : Z;
  ad_low : Z;
  ad_span : Z;
  left_limit : Z;
  right_limit : Z;
  steps : Z;
  heading : Z;
  num_bins : Z;
  data : list Z;
  clockwise : bool;
  points : list Point32;
  max : float;
  max_intensity : Z }.

(** Lines 72-77: the bins with every bin at or below [min_intensity] or
    at an index at or below [min_range] replaced by 0. *)
Definition masked (data : list Z) (min_intensity : float) (min_range : Z) : list Z :=
  map (fun p : Z * Z =>
         let (index, intensity) := p in
         if int_gt_float intensity min_intensity && (min_range <? index)
         then intensity else 0)
      (enumerate data).

(** Lines 83-87: the first index of [data] whose value is over
    [threshold], if there is one. *)
Fixpoint first_over_from (i : Z) (data : list Z) (threshold : float) : option Z :=
  match data with
  | [] => None
  | v :: r =>
      if int_gt_float v threshold then Some i
      else first_over_from (i + 1) r threshold
  end.

Definition first_over (data : list Z) (threshold : float) : option Z :=
  first_over_from 0 data threshold.

(** Line 71: [int(min_distance / self.range * self.num_bins)] *)
Definition min_range (min_distance range : float) (num_bins : Z) : result Z :=
  q <- fdiv min_distance range ;;
  int_of_float (q * float_of_int num_bins)%float.

(** [(i + 1) * self.range / self.num_bins] *)
Definition range_of_bin (i : Z) (range : float) (num_bins : Z) : float :=
  (float_of_int (i + 1) * range / float_of_int num_bins)%float.

Section Libm.

(** [math.cos] and [math.sin] of the C library. *)
Variables cos sin : float -> float.

(** The parameters [min_distance], [min_intensity] and [threshold] of
    [__init__] come from the ROS parameter server as numbers; an [int]
    among them divides and compares as the [float] of the same value. *)

Definition to_points (range : float) (heading num_bins : Z) : result (list Point32) :=
  r_step <- fdiv range (float_of_int num_bins) ;;
  let x_unit := (cos (sonar_angle_to_rad heading) * r_step)%float in
  let y_unit := (sin (sonar_angle_to_rad heading) * r_step)%float in
  Ok (map (fun r => {| x := (x_unit * float_of_int r)%float;
                       y := (y_unit * float_of_int r)%float;
                       z := 0%float |})
          (Py.range 1 (num_bins + 1))).

Definition __init__ (row : Row.t) (min_distance min_intensity threshold : float)
  : result t :=
  let range := (Row.range row / 10)%float in
  let num_bins := Row.num_bins row in
  let clockwise := 0 <? Z.land (Row.hdctrl row) 4 in
  points <- to_points range (Row.heading row) num_bins ;;
  min_range <- min_range min_distance range num_bins ;;
  let data := masked (Row.data row) min_intensity min_range in
  argmax <- Py.argmax data ;;
  raw <- getitem 0 (Row.data row) argmax ;;
  chosen <-
    match first_over data threshold with
    | None => Ok (range_of_bin argmax range num_bins, raw)
    | Some i =>
        v <- getitem 0 (Row.data row) i ;;
        Ok (range_of_bin i range num_bins, v)
    end ;;
  Ok {| sof := Row.sof row;
        timestamp := Row.timestamp row;
        node := Row.node row;
        status := Row.status row;
        hdctrl := Row.hdctrl row;
        range := range;
        gain := Row.gain row;
        slope := Row.slope row;
        ad_low := Row.ad_low row;
        ad_span := Row.ad_span row;
        left_limit := Row.left_limit row;
        right_limit := Row.right_limit row;
        steps := Row.steps row;
        heading := Row.heading row;
        num_bins := num_bins;
        data := Row.data row;
        clockwise := clockwise;
        points := points;
        max := fst chosen;
        max_intensity := snd chosen |}.

Definition to_pointcloud (self : t) (frame : String.string) (now : Z)
  : result PointCloud.t :=
  pts <- to_points (range self) (heading self) (num_bins self) ;;
  Ok {| PointCloud.frame_id := frame;
        PointCloud.stamp := now;
        PointCloud.points := pts;
        PointCloud.channels :=
          [ {| name := "intensity"%string; values := data self |} ] |}.

End Libm.

End Slice.

(** ** Scan

    The attributes of a [Scan] start as [None]; a method that assigns to
    [self] returns the new object next to its result. *)

Module Scan.

Record t : Set := {
  range : option float;
  steps : option Z;
  num_bins : option Z;
  left_limit : option Z;
  right_limit : option Z;
  clockwise : option bool;
  slices : list Slice.t;
  time : Z }.

Definition __init__ (now : Z) : t :=
  {| range := None;
     steps := None;
     num_bins := None;
     left_limit := None;
     right_limit := None;
     clockwise := None;
     slices := [];
     time := now |}.

Definition empty (self : t) : bool := len (slices self) =? 0.

(** Lines 155-158: continuous scan or sector scan. *)
Definition max_range (right_limit left_limit : Z) : Z :=
  if (right_limit =? 3201) && (left_limit =? 3199) then 6400
  else (right_limit - left_limit) mod 6400.

Definition full (self : t) : result bool :=
  match steps self with
  | None => Ok false
  | Some st =>
      match right_limit self, left_limit self with
      | Some r, Some l =>
          if st =? 0 then Raise ZeroDivisionError
          else Ok (len (slices self) =? max_range r l / st)
      | _, _ => Raise TypeError
      end
  end.

(** [a != b] where [b] may still be [None]. *)
Definition ne_float (a : float) (b : option float) : bool :=
  match b with
  | None => true
  | Some b' => negb (a =? b')%float
  end.

Definition ne_int (a : Z) (b : option Z) : bool :=
  match b with
  | None => true
  | Some b' => negb (a =? b')
  end.

Definition ne_bool (a : bool) (b : option bool) : bool :=
  match b with
  | None => true
  | Some b' => negb (Bool.eqb a b')
  end.

(** Lines 169-174: the slice is of a different scan. *)
Definition different_scan (self : t) (scan_slice : Slice.t) : bool :=
  ne_float (Slice.range scan_slice) (range self)
  || ne_int (Slice.num_bins scan_slice) (num_bins self)
  || ne_int (Slice.steps scan_slice) (steps self)
  || ne_int (Slice.left_limit scan_slice) (left_limit self)
  || ne_int (Slice.right_limit scan_slice) (right_limit self)
  || ne_bool (Slice.clockwise scan_slice) (clockwise self).

Definition set_slices (self : t) (l : list Slice.t) : t :=
  {| range := range self;
     steps := steps self;
     num_bins := num_bins self;
     left_limit := left_limit self;
     right_limit := right_limit self;
     clockwise := clockwise self;
     slices := l;
     time := time self |}.

Definition set_time (self : t) (now : Z) : t :=
  {| range := range self;
     steps := steps self;
     num_bins := num_bins self;
     left_limit := left_limit self;
     right_limit := right_limit self;
     clockwise := clockwise self;
     slices := slices self;
     time := now |}.

(** An exception of [add] is raised before any assignment to [self]. *)
Definition add (self : t) (scan_slice : Slice.t) : result t :=
  if different_scan self scan_slice then
    Ok {| range := Some (Slice.range scan_slice);
          num_bins := Some (Slice.num_bins scan_slice);
          steps := Some (Slice.steps scan_slice);
          left_limit := Some (Slice.left_limit scan_slice);
          right_limit := Some (Slice.right_limit scan_slice);
          clockwise := Some (Slice.clockwise scan_slice);
          slices := [scan_slice];
          time := time self |}
  else
    is_full <- full self ;;
    if is_full : bool then
      match slices self with
      | [] => Raise IndexError
      | _ :: rest => Ok (set_slices self (rest ++ [scan_slice]))
      end
    else Ok (set_slices self (slices self ++ [scan_slice])).

(** [timedelta.total_seconds()] of a difference of [us] microseconds. *)
Definition total_seconds (us : Z) : float :=
  (float_of_int us / 1000000)%float.

(** [rospy.Duration.from_sec], in nanoseconds. *)
Definition duration_from_sec (float_secs : float) : result Z :=
  secs <- int_of_float float_secs ;;
  nsecs <- int_of_float ((float_secs - float_of_int secs) * 1000000000)%float ;;
  Ok (secs * 1000000000 + nsecs).

(** Lines 206-208: the latest [queue] slices by time stamp. *)
Definition queued_slices (self : t) (queue : Z) : list Slice.t :=
  slice_from (-1 * queue) (sorted Slice.timestamp (slices self)).

(** Lines 234-237. *)
Fixpoint write_slices (st : Z) (queued : list Slice.t)
  (ranges : list float) (intensities : list Z) : result (list float * list Z) :=
  match queued with
  | [] => Ok (ranges, intensities)
  | scan_slice :: rest =>
      let index := Slice.heading scan_slice / st in
      ranges' <- setitem ranges index (Slice.max scan_slice) ;;
      intensities' <- setitem intensities index (Slice.max_intensity scan_slice) ;;
      write_slices st rest ranges' intensities'
  end.

(** Lines 232-233: one bucket per heading, all zero. *)
Definition zero_ranges (num_of_headings : Z) : list float :=
  map (fun _ => 0%float) (Py.range 0 num_of_headings).

Definition zero_intensities (num_of_headings : Z) : list Z :=
  map (fun _ => 0) (Py.range 0 num_of_headings).

(** Lines 223-239, after [self.time] has been advanced. *)
Definition build_scan (self : t) (frame : String.string) (queued : list Slice.t)
  (time_increment scan_time : float) : result LaserScan.t :=
  match steps self with
  | None => Raise TypeError
  | Some st =>
      if st =? 0 then Raise ZeroDivisionError
      else
        let num_of_headings := 6400 / st in
        filled <- write_slices st queued
                    (zero_ranges num_of_headings)
                    (zero_intensities num_of_headings) ;;
        Ok {| LaserScan.frame_id := frame;
              LaserScan.stamp := time self;
              LaserScan.angle_min := sonar_angle_to_rad 0;
              LaserScan.angle_max := sonar_angle_to_rad 6400;
              LaserScan.angle_increment := sonar_angle_to_rad st;
              LaserScan.time_increment := time_increment;
              LaserScan.scan_time := scan_time;
              LaserScan.range_min := 0x1.999999999999ap-4%float;
              LaserScan.range_max := range self;
              LaserScan.ranges := fst filled;
              LaserScan.intensities := snd filled |}
  end.

(** Lines 211-213. *)
Definition time_increment (queued : list Slice.t) (scan_time : float) : float :=
  if 1 <? len queued then scan_time else 0%float.

(** Line 235 and the subscript of lines 236-237: the bucket a slice is
    written to, in an array of [n] buckets. *)
Definition bucket (n st : Z) (scan_slice : Slice.t) : result nat :=
  resolve n (Slice.heading scan_slice / st).

(** Lines 214-216: [queued_slices[-1]] and [queued_slices[0]] raise on
    an empty list.  (Lines 211-213 evaluate the same difference, and only
    when there are two slices or more.) *)
Definition scan_time (queued : list Slice.t) : result float :=
  match queued with
  | [] => Raise IndexError
  | first :: _ =>
      Ok (total_seconds
            (Slice.timestamp (last queued first) - Slice.timestamp first))
  end.

(** The result, [None] for no message, and the object afterwards: an
    exception raised after line 220 leaves [self.time] advanced. *)
Definition to_laser_scan (self : t) (frame : String.string) (queue : Z)
  : result (option LaserScan.t) * t :=
  if (len (slices self) <? queue) || empty self then (Ok None, self)
  else
    let queued := queued_slices self queue in
    match scan_time queued with
    | Raise e => (Raise e, self)
    | Ok scan_time =>
        let time_increment := time_increment queued scan_time in
        match duration_from_sec time_increment with
        | Raise e => (Raise e, self)
        | Ok d =>
            let self' := set_time self (time self + d) in
            match build_scan self' frame queued time_increment scan_time with
            | Raise e => (Raise e, self')
            | Ok scan => (Ok (Some scan), self')
            end
        end
    end.

Definition to_pointcloud (self : t) (frame : String.string) (now : Z)
  : PointCloud.t * t :=
  ({| PointCloud.frame_id := frame;
      PointCloud.stamp := now;
      PointCloud.points := flat_map Slice.points (slices self);
      PointCloud.channels :=
        [ {| name := "intensity"%string;
             values := flat_map Slice.data (slices self) |} ] |},
   self).

(** The objects the driving loop can hold: a fresh scan, then any
    sequence of [add] and [to_laser_scan]. *)
Inductive reachable : t -> Prop :=
| reach_init : forall now, reachable (__init__ now)
| reach_add : forall self scan_slice self',
    reachable self -> add self scan_slice = Ok self' -> reachable self'
| reach_laser_scan : forall self frame queue,
    reachable self -> reachable (snd (to_laser_scan self frame queue)).

(** Lines 155-160: the size at which [full] answers [True]. *)
Definition capacity (self : t) : option Z :=
  match steps self, right_limit self, left_limit self with
  | Some st, Some r, Some l =>
      if st =? 0 then None else Some (max_range r l / st)
  | _, _, _ => None
  end.

End Scan.

(** ** Predicates used in the statements *)

(** [i] is the first position of the maximum of [l]. *)
Definition first_max (l : list Z) (i : Z) : Prop :=
  0 <= i < len l /\
  (forall j, (j < length l)%nat -> nth j l 0 <= nth (Z.to_nat i) l 0) /\
  (forall j, (j < Z.to_nat i)%nat -> nth j l 0 < nth (Z.to_nat i) l 0).

(** [i] is the lowest position of [l] whose value is over [th]. *)
Definition nearest_over (l : list Z) (th : float) (i : Z) : Prop :=
  0 <= i < len l /\
  int_gt_float (nth (Z.to_nat i) l 0) th = true /\
  (forall j, (j < Z.to_nat i)%nat -> int_gt_float (nth j l 0) th = false).

(** A binary64 number that is not negative, or not a number. *)
Definition not_negative (x : spec_float) : Prop :=
  match x with
  | S754_infinity s => s = false
  | S754_finite s _ _ => s = false
  | _ => True
  end.

(** A binary64 number above zero. *)
Definition above_zero (x : spec_float) : Prop :=
  match x with
  | S754_infinity s => s = false
  | S754_finite s _ _ => s = false
  | _ => False
  end.

(** Once a shape is adopted the sweep bounds are set and the buffer is
    never empty again. *)
Definition shaped (self : Scan.t) : Prop :=
  forall st, Scan.steps self = Some st ->
    Scan.slices self <> [] /\
    exists r l, Scan.right_limit self = Some r /\ Scan.left_limit self = Some l.

(** ** The parser's policy as the specification words it (4.1)

    Kept apart from the code's [Slice.min_range] and [Slice.masked], to
    be compared with them. *)

Module Spec.

(** Step 1: [min_bin_index = floor(min_distance / range * num_bins)]. *)
Definition min_bin_index (min_distance range : float) (num_bins : Z) : result Z :=
  q <- fdiv min_distance range ;;
  floor_of_float (q * float_of_int num_bins)%float.

(** Step 2: every bin at index [<= min_bin_index] or with intensity
    [<= min_intensity] is zeroed. *)
Definition masked_bins (bins : list Z) (min_intensity : float) (min_bin_index : Z)
  : list Z :=
  map (fun p : Z * Z =>
         let (index, intensity) := p in
         if (index <=? min_bin_index) || negb (int_gt_float intensity min_intensity)
         then 0 else intensity)
      (enumerate bins).

(** Step 3, for one row: with no masked bin over the threshold, the
    chosen range and intensity are those of the first maximum of the
    masked bins. *)
Definition default_choice (cos sin : float -> float) (row : Row.t)
  (min_distance min_intensity threshold : float) : Prop :=
  forall self mbi,
    0 < Row.num_bins row ->
    (0 <? Row.range row / 10)%float = true ->
    Slice.__init__ cos sin row min_distance min_intensity threshold = Ok self ->
    min_bin_index min_distance (Slice.range self) (Slice.num_bins self) = Ok mbi ->
    Forall (fun v => int_gt_float v threshold = false)
           (masked_bins (Slice.data self) min_intensity mbi) ->
    exists i,
      first_max (masked_bins (Slice.data self) min_intensity mbi) i /\
      Slice.max self = Slice.range_of_bin i (Slice.range self) (Slice.num_bins self) /\
      Slice.max_intensity self =
        nth (Z.to_nat i) (masked_bins (Slice.data self) min_intensity mbi) 0.

(** Step 4, for one row: a masked bin over the threshold makes the
    nearest such bin the choice, with that masked bin's value. *)
Definition override_choice (cos sin : float -> float) (row : Row.t)
  (min_distance min_intensity threshold : float) : Prop :=
  forall self mbi,
    Slice.__init__ cos sin row min_distance min_intensity threshold = Ok self ->
    min_bin_index min_distance (Slice.range self) (Slice.num_bins self) = Ok mbi ->
    Exists (fun v => int_gt_float v threshold = true)
           (masked_bins (Slice.data self) min_intensity mbi) ->
    exists i,
      nearest_over (masked_bins (Slice.data self) min_intensity mbi) threshold i /\
      Slice.max self = Slice.range_of_bin i (Slice.range self) (Slice.num_bins self) /\
      Slice.max_intensity self =
        nth (Z.to_nat i) (masked_bins (Slice.data self) min_intensity mbi) 0.

(** 4.3 and section 8, for one scan and one queue value
    [queue >= 0]: the polar projection is absent exactly when the buffer
    is empty or holds fewer than [queue] slices, and otherwise is a
    result with [floor(6400 / steps)] ranges and as many intensities. *)
Definition polar_projection (self : Scan.t) (frame : string) (queue : Z) : Prop :=
  0 <= queue ->
  (fst (Scan.to_laser_scan self frame queue) = Ok None <->
   Scan.slices self = [] \/ len (Scan.slices self) < queue) /\
  (~ (Scan.slices self = [] \/ len (Scan.slices self) < queue) ->
   exists scan st,
     fst (Scan.to_laser_scan self frame queue) = Ok (Some scan) /\
     Scan.steps self = Some st /\
     len (LaserScan.ranges scan) = 6400 / st /\
     len (LaserScan.intensities scan) = 6400 / st).

(** 4.3, for one scan: of the selected slices that share a bucket, the
    one inserted last supplies the bucket's range and intensity. *)
Definition last_inserted_wins (self : Scan.t) (frame : string) (queue : Z) : Prop :=
  forall scan st older sl newer k,
    fst (Scan.to_laser_scan self frame queue) = Ok (Some scan) ->
    Scan.steps self = Some st ->
    Scan.slices self = older ++ sl :: newer ->
    In sl (Scan.queued_slices self queue) ->
    Scan.bucket (len (LaserScan.ranges scan)) st sl = Ok k ->
    (exists x, In x older /\ In x (Scan.queued_slices self queue) /\
               Scan.bucket (len (LaserScan.ranges scan)) st x = Ok k) ->
    (forall x, In x newer -> In x (Scan.queued_slices self queue) ->
               Scan.bucket (len (LaserScan.ranges scan)) st x <> Ok k) ->
    nth k (LaserScan.ranges scan) 0%float = Slice.max sl /\
    nth k (LaserScan.intensities scan) 0 = Slice.max_intensity sl.

(** 3 and 4.3, for one slice and one value of [steps]: a heading in
    [0 <= heading < 6400] is written inside the [floor(6400 / steps)]
    buckets. *)
Definition write_in_bounds (st : Z) (sl : Slice.t) : Prop :=
  0 <= Slice.heading sl < 6400 ->
  0 < st ->
  exists k,
    Scan.bucket (6400 / st) st sl = Ok k /\
    Z.of_nat k = Slice.heading sl / st.

End Spec.

(** ** Sample rows, slices and scans *)

Module Sample.

(** A row at a range of 10 m. *)
Definition row (timestamp left_limit right_limit steps heading num_bins : Z)
  (bins : list Z) : Row.t :=
  {| Row.sof := "SON"%string;
     Row.timestamp := timestamp;
     Row.node := 2;
     Row.status := 16;
     Row.hdctrl := 8967;
     Row.range := 100%float;
     Row.gain := 84;
     Row.slope := 125;
     Row.ad_low := 0;
     Row.ad_span := 255;
     Row.left_limit := left_limit;
     Row.right_limit := right_limit;
     Row.steps := steps;
     Row.heading := heading;
     Row.num_bins := num_bins;
     Row.data := bins |}.

(** The row of the specification's examples (section 8). *)
Definition strong_row : Row.t := row 0 3199 3201 16 0 5 [10; 60; 5; 80; 40].

(** A row whose bins are all at or below a [min_intensity] of 50. *)
Definition weak_row : Row.t := row 0 3199 3201 16 0 2 [10; 20].

(** The slice that [Slice.__init__] makes of the one-bin row
    [row timestamp left_limit right_limit steps heading 1 [bin]] with the
    default parameters ([min_distance = 1], [min_intensity = 50],
    [threshold = 0.5]), where [points] is its one point
    (lemma [sample_slice_parsed]). *)
Definition slice (timestamp left_limit right_limit steps heading bin : Z)
  (points : list Point32) : Slice.t :=
  {| Slice.sof := "SON"%string;
     Slice.timestamp := timestamp;
     Slice.node := 2;
     Slice.status := 16;
     Slice.hdctrl := 8967;
     Slice.range := 10%float;
     Slice.gain := 84;
     Slice.slope := 125;
     Slice.ad_low := 0;
     Slice.ad_span := 255;
     Slice.left_limit := left_limit;
     Slice.right_limit := right_limit;
     Slice.steps := steps;
     Slice.heading := heading;
     Slice.num_bins := 1;
     Slice.data := [bin];
     Slice.clockwise := true;
     Slice.points := points;
     Slice.max := 10%float;
     Slice.max_intensity := bin |}.

(** The point at 10 m along the headings 0, 16, 6399 and 6400, as the C
    library's [cos] and [sin] place it. *)
Definition point_0 : Point32 :=
  {| x := 10%float; y := 0%float; z := 0%float |}.

Definition point_16 : Point32 :=
  {| x := 0x1.3ff5e4cbaddebp+3%float; y := 0x1.41af946cf920bp-3%float; z := 0%float |}.

Definition point_6399 : Point32 :=
  {| x := 0x1.3ffff5e4be1d2p+3%float; y := (-0x1.41b2f406d0881p-7)%float; z := 0%float |}.

Definition point_6400 : Point32 :=
  {| x := 10%float; y := (-0x1.60fafbfd97309p-49)%float; z := 0%float |}.

(** A scan holding the slices [l], oldest first, all of the shape of a
    one-bin slice with the given sweep bounds and steps. *)
Definition scan (left_limit right_limit steps : Z) (l : list Slice.t) : Scan.t :=
  {| Scan.range := Some 10%float;
     Scan.steps := Some steps;
     Scan.num_bins := Some 1;
     Scan.left_limit := Some left_limit;
     Scan.right_limit := Some right_limit;
     Scan.clockwise := Some true;
     Scan.slices := l;
     Scan.time := 0 |}.

(** A sector of 16 heading units around heading 0 swept in steps of 32,
    after its first slice. *)
Definition narrow_sector : Scan.t :=
  scan 6392 8 32 [slice 0 6392 8 32 0 80 [point_0]].

(** Two slices of a continuous scan, taken one second apart. *)
Definition one_second_apart : Scan.t :=
  scan 3199 3201 16
    [slice 0 3199 3201 16 0 80 [point_0];
     slice 1000000 3199 3201 16 16 90 [point_16]].

(** A continuous scan in steps of 16 after a slice at heading 6400. *)
Definition full_turn : Scan.t :=
  scan 3199 3201 16 [slice 0 3199 3201 16 6400 80 [point_6400]].

(** A continuous scan in steps of 3 after a slice at heading 6399. *)
Definition odd_steps : Scan.t :=
  scan 3199 3201 3 [slice 0 3199 3201 3 6399 80 [point_6399]].

(** Two slices at heading 0 logged across midnight: the first at
    23:59:59, the second at 00:00:01. *)
Definition across_midnight : Scan.t :=
  scan 3199 3201 16
    [slice 86399000000 3199 3201 16 0 80 [point_0];
     slice 1000000 3199 3201 16 0 90 [point_0]].

End Sample.

(** ** The driving loop

    [main] without its collaborators: the rows are those the CSV reader
    yields after the header and before [rospy.is_shutdown()] turns true,
    each with the clock reading of its point cloud; the three publishers
    are the list of the messages published, in order.  [rate.sleep()]
    publishes nothing.  An exception ends the loop: the messages already
    published stay published. *)

Module Main.

Inductive message : Set :=
| Full (scan : LaserScan.t)
| Sector (scan : LaserScan.t)
| Points (cloud : PointCloud.t).

(** [if laser_scan: pub.publish(laser_scan)]: a message object is true,
    [None] is not. *)
Definition publish (topic : LaserScan.t -> message) (laser_scan : option LaserScan.t)
  : list message :=
  match laser_scan with
  | Some scan => [topic scan]
  | None => []
  end.

Section Loop.

Variables cos sin : float -> float.
Variables (queue : Z) (frame : string).
Variables min_distance min_intensity threshold : float.

(** Lines 343-356: one turn of the loop on [scan], for [row] read at
    clock time [now]. *)
Definition turn (scan : Scan.t) (row : Row.t) (now : Z)
  : list message * result Scan.t :=
  match Slice.__init__ cos sin row min_distance min_intensity threshold with
  | Raise e => ([], Raise e)
  | Ok scan_slice =>
      match Scan.add scan scan_slice with
      | Raise e => ([], Raise e)
      | Ok scan1 =>
          match Scan.to_laser_scan scan1 frame 0 with
          | (Raise e, _) => ([], Raise e)
          | (Ok full, scan2) =>
              match Scan.to_laser_scan scan2 frame queue with
              | (Raise e, _) => (publish Full full, Raise e)
              | (Ok sector, scan3) =>
                  match Slice.to_pointcloud cos sin scan_slice frame now with
                  | Raise e => (publish Full full ++ publish Sector sector, Raise e)
                  | Ok cloud =>
                      (publish Full full ++ publish Sector sector ++ [Points cloud],
                       Ok scan3)
                  end
              end
          end
      end
  end.

(** Lines 337-358. *)
Fixpoint loop (scan : Scan.t) (rows : list (Row.t * Z))
  : list message * result Scan.t :=
  match rows with
  | [] => ([], Ok scan)
  | (row, now) :: rest =>
      match turn scan row now with
      | (out, Raise e) => (out, Raise e)
      | (out, Ok scan') =>
          let (out', r) := loop scan' rest in (out ++ out', r)
      end
  end.

(** Lines 331-358, [start] being the clock reading of [Scan()]. *)
Definition main (start : Z) (rows : list (Row.t * Z))
  : list message * result Scan.t :=
  loop (Scan.__init__ start) rows.

End Loop.

(** The point clouds among the messages. *)
Definition clouds (out : list message) : list PointCloud.t :=
  flat_map (fun m => match m with Points c => [c] | _ => [] end) out.

(** The full scans among the messages. *)
Definition full_scans (out : list message) : list LaserScan.t :=
  flat_map (fun m => match m with Full s => [s] | _ => [] end) out.

(** The sector scans among the messages. *)
Definition sector_scans (out : list message) : list LaserScan.t :=
  flat_map (fun m => match m with Sector s => [s] | _ => [] end) out.

End Main.

(** * Properties *)

(** ** Lists and subscripts *)

Lemma bind_ok {A B : Type} (r : result A) (k : A -> result B) (b : B) :
  (x <- r ;; k x) = Ok b -> exists a, r = Ok a /\ k a = Ok b.
Proof.
  destruct r as [a|e]; simpl; intros H; [exists a; auto | discriminate].
Qed.

Lemma update_length {A : Type} (l : list A) (k : nat) (v : A) :
  length (update l k v) = length l.
Proof.
  revert k; induction l as [|a l IH]; intros [|k]; simpl; auto.
Qed.

Lemma nth_update_same {A : Type} (l : list A) (k : nat) (v d : A) :
  (k < length l)%nat -> nth k (update l k v) d = v.
Proof.
  revert k; induction l as [|a l IH]; intros [|k] H; simpl in *; try lia; auto.
  apply IH; lia.
Qed.

Lemma nth_update_other {A : Type} (l : list A) (k j : nat) (v d : A) :
  j <> k -> nth j (update l k v) d = nth j l d.
Proof.
  revert k j; induction l as [|a l IH]; intros [|k] [|j] H; simpl; auto; try congruence.
Qed.

Lemma resolve_ok (n i : Z) (k : nat) :
  resolve n i = Ok k ->
  (Z.of_nat k < n) /\ Z.of_nat k = (if i <? 0 then i + n else i).
Proof.
  unfold resolve.
  destruct ((0 <=? (if i <? 0 then i + n else i)) && ((if i <? 0 then i + n else i) <? n)) eqn:E;
    [|discriminate].
  intros H; injection H as <-.
  apply andb_true_iff in E as [E1 E2].
  apply Z.leb_le in E1; apply Z.ltb_lt in E2.
  rewrite Z2Nat.id by assumption. split; [assumption | reflexivity].
Qed.

Lemma resolve_in_range (n i : Z) :
  0 <= i < n -> resolve n i = Ok (Z.to_nat i).
Proof.
  intros [H0 H1]. unfold resolve.
  destruct (i <? 0) eqn:E; [apply Z.ltb_lt in E; lia|].
  replace (0 <=? i) with true by (symmetry; apply Z.leb_le; lia).
  replace (i <? n) with true by (symmetry; apply Z.ltb_lt; lia).
  reflexivity.
Qed.

Lemma resolve_total (n i : Z) :
  - n <= i < n -> exists k, resolve n i = Ok k.
Proof.
  intros [H0 H1].
  destruct (Z.lt_ge_cases i 0) as [Hneg | Hpos].
  - unfold resolve.
    replace (i <? 0) with true by (symmetry; apply Z.ltb_lt; lia).
    replace (0 <=? i + n) with true by (symmetry; apply Z.leb_le; lia).
    replace (i + n <? n) with true by (symmetry; apply Z.ltb_lt; lia).
    eexists; reflexivity.
  - exists (Z.to_nat i). apply resolve_in_range; lia.
Qed.

Lemma resolve_raise (n i : Z) (e : exn) :
  resolve n i = Raise e -> e = IndexError /\ ~ (- n <= i < n).
Proof.
  unfold resolve.
  destruct (i <? 0) eqn:E;
    [apply Z.ltb_lt in E | apply Z.ltb_ge in E].
  - destruct (0 <=? i + n) eqn:E1; simpl.
    + destruct (i + n <? n) eqn:E2; [discriminate|].
      apply Z.ltb_ge in E2. lia.
    + intros H; injection H as <-. apply Z.leb_gt in E1. split; [reflexivity | lia].
  - destruct (0 <=? i) eqn:E1; simpl.
    + destruct (i <? n) eqn:E2; [discriminate|].
      intros H; injection H as <-. apply Z.ltb_ge in E2. split; [reflexivity | lia].
    + apply Z.leb_gt in E1. lia.
Qed.

Lemma getitem_in_range {A : Type} (d : A) (l : list A) (i : Z) :
  0 <= i < len l -> getitem d l i = Ok (nth (Z.to_nat i) l d).
Proof.
  intros H. unfold getitem. rewrite resolve_in_range by assumption. reflexivity.
Qed.

Lemma setitem_ok {A : Type} (l l' : list A) (i : Z) (v : A) :
  setitem l i v = Ok l' ->
  exists k, resolve (len l) i = Ok k /\ l' = update l k v.
Proof.
  unfold setitem. intros H. apply bind_ok in H as (k & Hk & H).
  injection H as <-. exists k; auto.
Qed.

Lemma nth_map_in {A B : Type} (f : A -> B) (l : list A) (k : nat) (d : B) (d' : A) :
  (k < length l)%nat -> nth k (map f l) d = f (nth k l d').
Proof.
  revert k; induction l as [|a l IH]; intros [|k] H; simpl in *; try lia; auto.
  apply IH; lia.
Qed.

Lemma len_map {A B : Type} (f : A -> B) (l : list A) : len (map f l) = len l.
Proof. unfold len. rewrite length_map. reflexivity. Qed.

Lemma len_range (a b : Z) : len (Py.range a b) = Z.max 0 (b - a).
Proof.
  unfold len, Py.range. rewrite length_map, length_seq. lia.
Qed.

Lemma enumerate_from_length {A : Type} (l : list A) (i : Z) :
  length (enumerate_from i l) = length l.
Proof.
  revert i; induction l as [|a l IH]; intros i; simpl; auto.
Qed.

Lemma enumerate_from_nth {A : Type} (l : list A) (i : Z) (k : nat) (d : A) :
  (k < length l)%nat ->
  nth k (enumerate_from i l) (0, d) = (i + Z.of_nat k, nth k l d).
Proof.
  revert i k; induction l as [|a l IH]; intros i [|k] H; simpl in *; try lia.
  - f_equal; lia.
  - rewrite IH by lia. f_equal; lia.
Qed.

(** ** [numpy.argmax] *)

Lemma argmax_from_spec (l : list Z) :
  forall best_i best i,
    (argmax_from best_i best i l = best_i /\ Forall (fun v => v <= best) l)
    \/ exists k : nat,
         argmax_from best_i best i l = i + Z.of_nat k /\
         (k < length l)%nat /\
         best < nth k l 0 /\
         (forall j, (j < k)%nat -> nth j l 0 < nth k l 0) /\
         (forall j, (j < length l)%nat -> nth j l 0 <= nth k l 0).
Proof.
  induction l as [|v l IH]; intros best_i best i; simpl.
  - left; split; [reflexivity | constructor].
  - destruct (best <? v) eqn:E.
    + apply Z.ltb_lt in E. right.
      destruct (IH i v (i + 1)) as [[Hr Hall] | (k & Hr & Hk & Hb & Hlt & Hle)].
      * exists 0%nat. rewrite Hr. repeat split; simpl; try lia.
        intros [|j] Hj; [lia|].
        rewrite Forall_forall in Hall. apply Hall, nth_In; lia.
      * exists (S k). rewrite Hr. repeat split; simpl; try lia.
        -- intros [|j] Hj; [lia | apply Hlt; lia].
        -- intros [|j] Hj; [lia | apply Hle; lia].
    + apply Z.ltb_ge in E.
      destruct (IH best_i best (i + 1)) as [[Hr Hall] | (k & Hr & Hk & Hb & Hlt & Hle)].
      * left; split; [assumption | constructor; assumption].
      * right. exists (S k). rewrite Hr. repeat split; simpl; try lia.
        -- intros [|j] Hj; [lia | apply Hlt; lia].
        -- intros [|j] Hj; [lia | apply Hle; lia].
Qed.

Lemma argmax_first_max (l : list Z) (i : Z) :
  argmax l = Ok i -> first_max l i.
Proof.
  destruct l as [|v l]; simpl; [discriminate|].
  intros H; injection H as <-.
  destruct (argmax_from_spec l 0 v 1) as [[Hr Hall] | (k & Hr & Hk & Hb & Hlt & Hle)];
    rewrite Hr; unfold first_max, len; simpl length.
  - split; [lia | split].
    + intros [|j] Hj; simpl; [lia|].
      rewrite Forall_forall in Hall. apply Hall, nth_In. lia.
    + intros j Hj. simpl in Hj. lia.
  - replace (Z.to_nat (1 + Z.of_nat k)) with (S k) by lia.
    split; [lia | split].
    + intros [|j] Hj; simpl; [lia | apply Hle; lia].
    + intros [|j] Hj; simpl; [lia | apply Hlt; lia].
Qed.

Lemma first_max_unique (l : list Z) (i j : Z) :
  first_max l i -> first_max l j -> i = j.
Proof.
  intros (Hi & Hile & Hilt) (Hj & Hjle & Hjlt).
  unfold len in *.
  destruct (Z.lt_trichotomy i j) as [H | [H | H]]; [| assumption |].
  - specialize (Hjlt (Z.to_nat i) ltac:(lia)).
    specialize (Hile (Z.to_nat j) ltac:(lia)). lia.
  - specialize (Hilt (Z.to_nat j) ltac:(lia)).
    specialize (Hjle (Z.to_nat i) ltac:(lia)). lia.
Qed.

Lemma argmax_all_zero (l : list Z) (i : Z) :
  Forall (fun v => v = 0) l -> argmax l = Ok i -> i = 0.
Proof.
  intros Hall H. apply argmax_first_max in H.
  destruct H as (Hi & _ & Hlt).
  destruct (Z.eq_dec i 0) as [|Hne]; [assumption|].
  specialize (Hlt 0%nat ltac:(lia)).
  rewrite Forall_forall in Hall. unfold len in Hi.
  rewrite (Hall (nth 0 l 0)) in Hlt by (apply nth_In; lia).
  rewrite (Hall (nth (Z.to_nat i) l 0)) in Hlt by (apply nth_In; lia).
  lia.
Qed.

(** ** Binary64 arithmetic

    From the specification of the primitive operations
    ([FloatAxioms]). *)

Lemma digits2_shift52 (m : positive) :
  Z.pos (digits2_pos (m~0~0~0~0~0~0~0~0~0~0~0~0~0~0~0~0~0~0~0~0~0~0~0~0~0~0~0~0~0~0~0~0~0~0~0~0~0~0~0~0~0~0~0~0~0~0~0~0~0~0~0~0)%positive)
  = Z.pos (digits2_pos m) + 52.
Proof.
  cbn [digits2_pos]. rewrite !Pos2Z.inj_succ. lia.
Qed.

Lemma round_mul_one (s : bool) (m : positive) (e : Z) :
  bounded prec emax m e = true ->
  binary_round_aux prec emax s (Z.pos (4503599627370496 * m)) (-52 + e) loc_Exact
  = S754_finite s m e.
Proof.
  intros Hb. unfold bounded in Hb. apply andb_true_iff in Hb as [Hc He].
  unfold canonical_mantissa in Hc. apply Z.eqb_eq in Hc.
  unfold binary_round_aux.
  change (4503599627370496 * m)%positive
    with (m~0~0~0~0~0~0~0~0~0~0~0~0~0~0~0~0~0~0~0~0~0~0~0~0~0~0~0~0~0~0~0~0~0~0~0~0~0~0~0~0~0~0~0~0~0~0~0~0~0~0~0~0)%positive.
  unfold shr_fexp at 1. unfold Zdigits2. rewrite digits2_shift52.
  replace (Z.pos (digits2_pos m) + 52 + (-52 + e)) with (Z.pos (digits2_pos m) + e) by lia.
  rewrite Hc. replace (e - (-52 + e)) with 52 by lia.
  unfold shr. cbn [shr_record_of_loc].
  change (iter_pos shr_1 52 _) with {| shr_m := Z.pos m; shr_r := false; shr_s := false |}.
  cbn [shr_m loc_of_shr_record round_nearest_even].
  replace (-52 + e + 52) with e by lia.
  unfold shr_fexp, Zdigits2. rewrite Hc, Z.sub_diag. cbn [shr shr_record_of_loc shr_m].
  rewrite He. reflexivity.
Qed.

Lemma mul_one_l (r : float) : (1 * r)%float = r.
Proof.
  apply Prim2SF_inj. rewrite mul_spec.
  change (Prim2SF 1) with (S754_finite false 4503599627370496 (-52)).
  pose proof (Prim2SF_valid r) as Hv.
  destruct (Prim2SF r) as [s | s | | s m e]; try reflexivity.
  unfold SF64mul, SFmul. cbn [xorb]. apply round_mul_one. exact Hv.
Qed.

Lemma binary_round_aux_sign (s : bool) (m e : Z) (l : location) :
  match binary_round_aux prec emax s m e l with
  | S754_finite s' _ _ => s' = s
  | S754_infinity s' => s' = s
  | _ => True
  end.
Proof.
  unfold binary_round_aux.
  destruct (shr_fexp prec emax m e l) as [mrs' e'].
  destruct (shr_fexp prec emax _ e' loc_Exact) as [mrs'' e''].
  destruct (shr_m mrs''); [exact I | | exact I].
  destruct (e'' <=? emax - prec); reflexivity.
Qed.

Lemma leb_zero_not_negative (x : float) :
  (0 <=? x)%float = true -> not_negative (Prim2SF x).
Proof.
  rewrite leb_spec. change (Prim2SF 0) with (S754_zero false).
  destruct (Prim2SF x) as [s | [|] | | [|] m e]; simpl; intros H;
    try reflexivity; try exact I; discriminate H.
Qed.

Lemma ltb_zero_above (x : float) :
  (0 <? x)%float = true -> above_zero (Prim2SF x).
Proof.
  rewrite ltb_spec. change (Prim2SF 0) with (S754_zero false).
  destruct (Prim2SF x) as [s | [|] | | [|] m e]; simpl; intros H;
    try reflexivity; discriminate H.
Qed.

Lemma div_not_negative (a b : float) :
  not_negative (Prim2SF a) -> above_zero (Prim2SF b) ->
  not_negative (Prim2SF (a / b)).
Proof.
  rewrite div_spec. unfold SF64div, SFdiv.
  destruct (Prim2SF a) as [sa | sa | | sa ma ea], (Prim2SF b) as [sb | sb | | sb mb eb];
    simpl; intros Ha Hb; subst; simpl; try exact I; try reflexivity; try contradiction.
  destruct (SFdiv_core_binary prec emax (Z.pos ma) ea (Z.pos mb) eb) as [[mz ez] lz].
  pose proof (binary_round_aux_sign false mz ez lz) as H.
  destruct (binary_round_aux prec emax false mz ez lz); simpl; auto.
Qed.

Lemma mul_not_negative (a b : float) :
  not_negative (Prim2SF a) -> above_zero (Prim2SF b) ->
  not_negative (Prim2SF (a * b)).
Proof.
  rewrite mul_spec. unfold SF64mul, SFmul.
  destruct (Prim2SF a) as [sa | sa | | sa ma ea], (Prim2SF b) as [sb | sb | | sb mb eb];
    simpl; intros Ha Hb; subst; simpl; try exact I; try reflexivity; try contradiction.
  pose proof (binary_round_aux_sign false (Z.pos (ma * mb)) (ea + eb) loc_Exact) as H.
  destruct (binary_round_aux prec emax false (Z.pos (ma * mb)) (ea + eb) loc_Exact);
    simpl; auto.
Qed.

Lemma int_of_float_floor (x : float) :
  not_negative (Prim2SF x) -> int_of_float x = floor_of_float x.
Proof.
  unfold int_of_float, floor_of_float.
  destruct (Prim2SF x) as [s | s | | s m e]; simpl; intros H; try reflexivity.
  subst. unfold round_with. destruct (0 <=? e) eqn:E; [reflexivity|].
  apply Z.leb_gt in E.
  rewrite Z.quot_div_nonneg; [reflexivity | lia |].
  apply Z.pow_pos_nonneg; lia.
Qed.

(** ** The slice parser *)

Lemma masked_length (data : list Z) (mi : float) (mr : Z) :
  length (Slice.masked data mi mr) = length data.
Proof.
  unfold Slice.masked, enumerate. rewrite length_map. apply enumerate_from_length.
Qed.

Lemma masked_nth (data : list Z) (mi : float) (mr : Z) (k : nat) :
  (k < length data)%nat ->
  nth k (Slice.masked data mi mr) 0 =
  if int_gt_float (nth k data 0) mi && (mr <? Z.of_nat k) then nth k data 0 else 0.
Proof.
  intros H. unfold Slice.masked, enumerate.
  rewrite (nth_map_in _ _ _ _ (0, 0)) by (rewrite enumerate_from_length; assumption).
  rewrite enumerate_from_nth by assumption.
  reflexivity.
Qed.

(** A bin that survives the mask keeps its raw value. *)
Lemma masked_nonzero_raw (data : list Z) (mi : float) (mr : Z) (k : nat) :
  (k < length data)%nat ->
  nth k (Slice.masked data mi mr) 0 <> 0 ->
  nth k (Slice.masked data mi mr) 0 = nth k data 0.
Proof.
  intros H. rewrite masked_nth by assumption.
  destruct (int_gt_float (nth k data 0) mi && (mr <? Z.of_nat k)); congruence.
Qed.

Lemma first_over_from_some (l : list Z) (th : float) :
  forall i r,
    Slice.first_over_from i l th = Some r ->
    exists k : nat,
      r = i + Z.of_nat k /\ (k < length l)%nat /\
      int_gt_float (nth k l 0) th = true /\
      (forall j, (j < k)%nat -> int_gt_float (nth j l 0) th = false).
Proof.
  induction l as [|v l IH]; intros i r; simpl; [discriminate|].
  destruct (int_gt_float v th) eqn:E.
  - intros H; injection H as <-. exists 0%nat.
    repeat split; simpl; try lia; auto.
  - intros H. apply IH in H as (k & -> & Hk & Hgt & Hlt).
    exists (S k). repeat split; simpl; try lia; auto.
    intros [|j] Hj; [assumption | apply Hlt; lia].
Qed.

Lemma first_over_from_none (l : list Z) (th : float) :
  forall i,
    Slice.first_over_from i l th = None <->
    Forall (fun v => int_gt_float v th = false) l.
Proof.
  induction l as [|v l IH]; intros i; simpl.
  - split; [constructor | reflexivity].
  - destruct (int_gt_float v th) eqn:E.
    + split; [discriminate|]. intros H. inversion H; congruence.
    + rewrite IH. split; [constructor; assumption | intros H; inversion H; assumption].
Qed.

Lemma first_over_nearest (l : list Z) (th : float) (i : Z) :
  Slice.first_over l th = Some i -> nearest_over l th i.
Proof.
  unfold Slice.first_over. intros H.
  apply first_over_from_some in H as (k & -> & Hk & Hgt & Hlt).
  unfold nearest_over, len. simpl.
  rewrite Nat2Z.id. repeat split; try lia; assumption.
Qed.

Lemma nearest_over_unique (l : list Z) (th : float) (i j : Z) :
  nearest_over l th i -> nearest_over l th j -> i = j.
Proof.
  intros (Hi & Hig & Hil) (Hj & Hjg & Hjl). unfold len in *.
  destruct (Z.lt_trichotomy i j) as [H | [H | H]]; [| assumption |].
  - rewrite (Hjl (Z.to_nat i)) in Hig by lia. discriminate.
  - rewrite (Hil (Z.to_nat j)) in Hjg by lia. discriminate.
Qed.

Lemma exists_over_first_over (l : list Z) (th : float) :
  Exists (fun v => int_gt_float v th = true) l ->
  exists i, Slice.first_over l th = Some i.
Proof.
  intros H. unfold Slice.first_over.
  destruct (Slice.first_over_from 0 l th) as [i|] eqn:E; [exists i; reflexivity|].
  apply first_over_from_none in E.
  apply Exists_exists in H as (v & Hin & Hv).
  rewrite Forall_forall in E. rewrite (E v Hin) in Hv. discriminate.
Qed.

(** The code's cut-off index and mask against the specification's: the
    masks agree for a same cut-off, and [int] agrees with [floor] when
    [min_distance] is not negative. *)
Lemma spec_masked_bins (bins : list Z) (mi : float) (k : Z) :
  Spec.masked_bins bins mi k = Slice.masked bins mi k.
Proof.
  unfold Spec.masked_bins, Slice.masked. apply map_ext. intros [index intensity].
  destruct (int_gt_float intensity mi); simpl;
    [| rewrite orb_true_r; reflexivity].
  rewrite orb_false_r, Z.leb_antisym.
  destruct (k <? index); reflexivity.
Qed.

Lemma min_range_floor (md range : float) (num_bins : Z) :
  (0 <=? md)%float = true ->
  (0 <? range)%float = true ->
  (0 <? float_of_int num_bins)%float = true ->
  Slice.min_range md range num_bins = Spec.min_bin_index md range num_bins.
Proof.
  intros Hmd Hr Hn. unfold Slice.min_range, Spec.min_bin_index, fdiv.
  destruct (is_zero range); [reflexivity|]. simpl.
  apply int_of_float_floor, mul_not_negative; [| apply ltb_zero_above, Hn].
  apply div_not_negative; [apply leb_zero_not_negative, Hmd | apply ltb_zero_above, Hr].
Qed.

(** For a negative [min_distance] the two cut-offs differ, and so do the
    masked bins. *)
Example cutoff_truncates :
  Slice.min_range (-0x1p-1) 10 5 = Ok 0 /\
  Spec.min_bin_index (-0x1p-1) 10 5 = Ok (-1) /\
  Slice.masked [60; 55] 50 0 = [0; 55] /\
  Spec.masked_bins [60; 55] 50 (-1) = [60; 55].
Proof. repeat split; vm_compute; reflexivity. Qed.

Lemma range_of_bin_0 (range : float) (num_bins : Z) :
  Slice.range_of_bin 0 range num_bins = (range / float_of_int num_bins)%float.
Proof.
  unfold Slice.range_of_bin. change (float_of_int (0 + 1)) with 1%float.
  rewrite mul_one_l. reflexivity.
Qed.

(** What a successful construction has computed, step by step. *)
Lemma init_inv cos sin (row : Row.t) (md mi th : float) (self : Slice.t) :
  Slice.__init__ cos sin row md mi th = Ok self ->
  Slice.range self = (Row.range row / 10)%float /\
  Slice.num_bins self = Row.num_bins row /\
  Slice.data self = Row.data row /\
  exists mr am,
    Slice.min_range md (Slice.range self) (Slice.num_bins self) = Ok mr /\
    argmax (Slice.masked (Slice.data self) mi mr) = Ok am /\
    match Slice.first_over (Slice.masked (Slice.data self) mi mr) th with
    | None =>
        Slice.max self = Slice.range_of_bin am (Slice.range self) (Slice.num_bins self) /\
        getitem 0 (Slice.data self) am = Ok (Slice.max_intensity self)
    | Some i =>
        Slice.max self = Slice.range_of_bin i (Slice.range self) (Slice.num_bins self) /\
        getitem 0 (Slice.data self) i = Ok (Slice.max_intensity self)
    end.
Proof.
  unfold Slice.__init__. intros H.
  apply bind_ok in H as (pts & _ & H).
  apply bind_ok in H as (mr & Hmr & H).
  apply bind_ok in H as (am & Ham & H).
  apply bind_ok in H as (raw & Hraw & H).
  apply bind_ok in H as (chosen & Hch & H).
  injection H as <-. simpl.
  repeat split. exists mr, am. repeat split; try assumption.
  destruct (Slice.first_over (Slice.masked (Row.data row) mi mr) th) as [i|].
  - apply bind_ok in Hch as (v & Hv & Hch). injection Hch as <-. simpl. auto.
  - injection Hch as <-. simpl. auto.
Qed.

(** ** [sorted] *)

Lemma insert_by_perm {A : Type} (key : A -> Z) (x : A) (l : list A) :
  Permutation (x :: l) (insert_by key x l).
Proof.
  induction l as [|y l IH]; simpl; [reflexivity|].
  destruct (key x <=? key y); [reflexivity|].
  rewrite perm_swap. constructor. exact IH.
Qed.

Lemma sorted_perm {A : Type} (key : A -> Z) (l : list A) :
  Permutation l (sorted key l).
Proof.
  induction l as [|x l IH]; simpl; [reflexivity|].
  rewrite <- insert_by_perm. constructor. exact IH.
Qed.

Lemma sorted_length {A : Type} (key : A -> Z) (l : list A) :
  length (sorted key l) = length l.
Proof. symmetry. apply Permutation_length, sorted_perm. Qed.

Lemma sorted_in {A : Type} (key : A -> Z) (l : list A) (x : A) :
  In x (sorted key l) <-> In x l.
Proof.
  split; apply Permutation_in; [symmetry|]; apply sorted_perm.
Qed.

Lemma insert_by_sorted {A : Type} (key : A -> Z) (x : A) (l : list A) :
  StronglySorted (fun a b => key a <= key b) l ->
  StronglySorted (fun a b => key a <= key b) (insert_by key x l).
Proof.
  induction l as [|y l IH]; intros Hs; simpl.
  - repeat constructor.
  - inversion Hs as [|? ? Hl Hy]; subst.
    destruct (key x <=? key y) eqn:E.
    + apply Z.leb_le in E. constructor; [assumption|].
      constructor; [assumption|].
      rewrite Forall_forall in *. intros b Hb. specialize (Hy b Hb). lia.
    + apply Z.leb_gt in E. constructor; [apply IH; assumption|].
      rewrite Forall_forall in *. intros b Hb.
      apply (Permutation_in _ (Permutation_sym (insert_by_perm key x l))) in Hb.
      destruct Hb as [<- | Hb]; [lia | apply Hy; assumption].
Qed.

Lemma sorted_sorted {A : Type} (key : A -> Z) (l : list A) :
  StronglySorted (fun a b => key a <= key b) (sorted key l).
Proof.
  induction l as [|x l IH]; simpl; [constructor | apply insert_by_sorted, IH].
Qed.

(** Stability: elements with the same key keep their order. *)
Lemma insert_by_filter {A : Type} (key : A -> Z) (k : Z) (x : A) (l : list A) :
  StronglySorted (fun a b => key a <= key b) l ->
  filter (fun a => key a =? k) (insert_by key x l) =
  filter (fun a => key a =? k) (x :: l).
Proof.
  induction l as [|y l IH]; intros Hs; simpl; [reflexivity|].
  inversion Hs as [|? ? Hl Hy]; subst.
  destruct (key x <=? key y) eqn:E; [reflexivity|].
  apply Z.leb_gt in E. simpl. rewrite (IH Hl). simpl.
  destruct (key x =? k) eqn:Ex, (key y =? k) eqn:Ey; try reflexivity.
  apply Z.eqb_eq in Ex, Ey. lia.
Qed.

Lemma sorted_stable {A : Type} (key : A -> Z) (k : Z) (l : list A) :
  filter (fun a => key a =? k) (sorted key l) = filter (fun a => key a =? k) l.
Proof.
  induction l as [|x l IH]; simpl; [reflexivity|].
  rewrite insert_by_filter by apply sorted_sorted.
  simpl. rewrite IH. reflexivity.
Qed.

(** A list already in order is left as it is. *)
Lemma sorted_id {A : Type} (key : A -> Z) (l : list A) :
  StronglySorted (fun a b => key a <= key b) l -> sorted key l = l.
Proof.
  induction l as [|x l IH]; intros Hs; simpl; [reflexivity|].
  inversion Hs as [|? ? Hl Hx]; subst. rewrite (IH Hl).
  destruct l as [|y l]; simpl; [reflexivity|].
  inversion Hx as [|? ? Hxy _]; subst.
  replace (key x <=? key y) with true by (symmetry; apply Z.leb_le; assumption).
  reflexivity.
Qed.

Lemma slice_from_suffix {A : Type} (start : Z) (l : list A) :
  exists dropped, l = dropped ++ slice_from start l.
Proof.
  unfold slice_from. eexists. symmetry. apply firstn_skipn.
Qed.

Lemma slice_from_length {A : Type} (k : Z) (l : list A) :
  0 <= k <= len l ->
  len (slice_from (-1 * k) l) = if k =? 0 then len l else k.
Proof.
  intros Hk. unfold slice_from, len in *. rewrite length_skipn.
  destruct (k =? 0) eqn:E; [apply Z.eqb_eq in E | apply Z.eqb_neq in E].
  - subst. simpl. lia.
  - destruct (-1 * k <? 0) eqn:E'; [apply Z.ltb_lt in E' | apply Z.ltb_ge in E']; lia.
Qed.

(** ** The bucket arrays *)

Lemma len_zero_ranges (n : Z) : len (Scan.zero_ranges n) = Z.max 0 n.
Proof. unfold Scan.zero_ranges. rewrite len_map, len_range. lia. Qed.

Lemma len_zero_intensities (n : Z) : len (Scan.zero_intensities n) = Z.max 0 n.
Proof. unfold Scan.zero_intensities. rewrite len_map, len_range. lia. Qed.

Lemma nth_zero_ranges (n : Z) (p : nat) : nth p (Scan.zero_ranges n) 0%float = 0%float.
Proof.
  unfold Scan.zero_ranges.
  destruct (Nat.lt_ge_cases p (length (Py.range 0 n))) as [H | H].
  - rewrite (nth_map_in _ _ _ _ 0) by assumption. reflexivity.
  - apply nth_overflow. rewrite length_map. assumption.
Qed.

Lemma nth_zero_intensities (n : Z) (p : nat) : nth p (Scan.zero_intensities n) 0 = 0.
Proof.
  unfold Scan.zero_intensities.
  destruct (Nat.lt_ge_cases p (length (Py.range 0 n))) as [H | H].
  - rewrite (nth_map_in _ _ _ _ 0) by assumption. reflexivity.
  - apply nth_overflow. rewrite length_map. assumption.
Qed.

Lemma len_update {A : Type} (l : list A) (k : nat) (v : A) :
  len (update l k v) = len l.
Proof. unfold len. rewrite update_length. reflexivity. Qed.

(** One turn of the loop of lines 234-237. *)
Lemma write_slices_cons (st : Z) (sl : Slice.t) (rest : list Slice.t)
  (ranges ranges' : list float) (intensities intensities' : list Z) (n : Z) :
  len ranges = n -> len intensities = n ->
  Scan.write_slices st (sl :: rest) ranges intensities = Ok (ranges', intensities') ->
  exists k,
    Scan.bucket n st sl = Ok k /\
    Scan.write_slices st rest
      (update ranges k (Slice.max sl))
      (update intensities k (Slice.max_intensity sl)) = Ok (ranges', intensities').
Proof.
  intros Hr Hi H. simpl in H.
  apply bind_ok in H as (r1 & H1 & H).
  apply bind_ok in H as (i1 & H2 & H).
  apply setitem_ok in H1 as (k & Hk & ->).
  apply setitem_ok in H2 as (k' & Hk' & ->).
  rewrite Hr in Hk. rewrite Hi in Hk'.
  assert (k' = k) by congruence. subst k'.
  exists k. split; assumption.
Qed.

Lemma write_slices_untouched (st n : Z) (queued : list Slice.t) :
  forall (ranges ranges' : list float) (intensities intensities' : list Z) (p : nat),
    len ranges = n -> len intensities = n ->
    Scan.write_slices st queued ranges intensities = Ok (ranges', intensities') ->
    len ranges' = n /\ len intensities' = n /\
    ((forall x, In x queued -> Scan.bucket n st x <> Ok p) ->
     nth p ranges' 0%float = nth p ranges 0%float /\
     nth p intensities' 0 = nth p intensities 0).
Proof.
  induction queued as [|sl rest IH]; intros ranges ranges' intensities intensities' p Hr Hi H.
  - simpl in H. injection H as <- <-. auto.
  - apply (write_slices_cons _ _ _ _ _ _ _ n Hr Hi) in H as (k & Hk & H).
    apply (IH _ _ _ _ p) in H as (Hr' & Hi' & Hnth);
      [| rewrite len_update; assumption | rewrite len_update; assumption].
    split; [assumption | split; [assumption|]].
    intros Hfree.
    destruct Hnth as [Hn1 Hn2]; [intros x Hx; apply Hfree; right; assumption|].
    assert (p <> k) by (intros ->; apply (Hfree sl); [left; reflexivity | assumption]).
    rewrite Hn1, Hn2. rewrite !nth_update_other by assumption. auto.
Qed.

(** Last write wins: a slice with no later slice in its bucket leaves
    its range and intensity there. *)
Lemma write_slices_last (st n : Z) (before : list Slice.t) :
  forall (sl : Slice.t) (after : list Slice.t)
         (ranges ranges' : list float) (intensities intensities' : list Z),
    len ranges = n -> len intensities = n ->
    Scan.write_slices st (before ++ sl :: after) ranges intensities
      = Ok (ranges', intensities') ->
    exists k,
      Scan.bucket n st sl = Ok k /\
      ((forall x, In x after -> Scan.bucket n st x <> Ok k) ->
       nth k ranges' 0%float = Slice.max sl /\
       nth k intensities' 0 = Slice.max_intensity sl).
Proof.
  induction before as [|b before IH];
    intros sl after ranges ranges' intensities intensities' Hr Hi H; simpl in H.
  - apply (write_slices_cons _ _ _ _ _ _ _ n Hr Hi) in H as (k & Hk & H).
    exists k. split; [assumption|]. intros Hfree.
    apply (write_slices_untouched st n _ _ _ _ _ k) in H as (_ & _ & Hnth);
      [| rewrite len_update; assumption | rewrite len_update; assumption].
    destruct (Hnth Hfree) as [-> ->].
    apply resolve_ok in Hk as [Hk _].
    rewrite !nth_update_same; auto; unfold len in *; lia.
  - apply (write_slices_cons _ _ _ _ _ _ _ n Hr Hi) in H as (k & Hk & H).
    apply IH in H; [assumption | rewrite len_update; assumption
                               | rewrite len_update; assumption].
Qed.

Lemma write_slices_total (st n : Z) (queued : list Slice.t) :
  forall (ranges : list float) (intensities : list Z),
    len ranges = n -> len intensities = n ->
    (forall x, In x queued -> - n <= Slice.heading x / st < n) ->
    exists filled, Scan.write_slices st queued ranges intensities = Ok filled.
Proof.
  induction queued as [|sl rest IH]; intros ranges intensities Hr Hi Hall; simpl.
  - eexists; reflexivity.
  - destruct (resolve_total n (Slice.heading sl / st)) as (k & Hk);
      [apply Hall; left; reflexivity|].
    unfold setitem. rewrite Hr, Hi, Hk. simpl.
    apply IH; [rewrite len_update; assumption | rewrite len_update; assumption|].
    intros x Hx. apply Hall. right. assumption.
Qed.

Lemma write_slices_raise (st n : Z) (queued : list Slice.t) :
  forall (ranges : list float) (intensities : list Z) (e : exn),
    len ranges = n -> len intensities = n ->
    Scan.write_slices st queued ranges intensities = Raise e ->
    e = IndexError /\
    exists x, In x queued /\ ~ (- n <= Slice.heading x / st < n).
Proof.
  induction queued as [|sl rest IH]; intros ranges intensities e Hr Hi H; simpl in H.
  - discriminate.
  - unfold setitem in H. rewrite Hr, Hi in H.
    destruct (resolve n (Slice.heading sl / st)) as [k|e'] eqn:Hk; simpl in H.
    + apply IH in H as (He & x & Hx & Hout);
        [| rewrite len_update; assumption | rewrite len_update; assumption].
      split; [assumption|]. exists x. split; [right|]; assumption.
    + injection H as <-. apply resolve_raise in Hk as [-> Hout].
      split; [reflexivity|]. exists sl. split; [left; reflexivity | assumption].
Qed.

(** ** The polar projection *)

Lemma set_time_same (self : Scan.t) : Scan.set_time self (Scan.time self) = self.
Proof. destruct self; reflexivity. Qed.

Lemma empty_nil (self : Scan.t) : Scan.empty self = true <-> Scan.slices self = [].
Proof.
  unfold Scan.empty, len. destruct (Scan.slices self); simpl; split;
    intros H; try reflexivity; try discriminate.
Qed.

(** The guard of line 200. *)
Lemma guard_spec (self : Scan.t) (queue : Z) :
  (len (Scan.slices self) <? queue) || Scan.empty self = true <->
  Scan.slices self = [] \/ len (Scan.slices self) < queue.
Proof.
  rewrite orb_true_iff, Z.ltb_lt, empty_nil. tauto.
Qed.

Lemma build_scan_ok (self : Scan.t) (frame : string) (queued : list Slice.t)
  (ti stime : float) (scan : LaserScan.t) :
  Scan.build_scan self frame queued ti stime = Ok scan ->
  exists st,
    Scan.steps self = Some st /\ st <> 0 /\
    Scan.write_slices st queued
      (Scan.zero_ranges (6400 / st)) (Scan.zero_intensities (6400 / st))
    = Ok (LaserScan.ranges scan, LaserScan.intensities scan).
Proof.
  unfold Scan.build_scan. destruct (Scan.steps self) as [st|]; [|discriminate].
  destruct (st =? 0) eqn:E; [discriminate|]. apply Z.eqb_neq in E.
  intros H. apply bind_ok in H as ([r i] & Hw & H). injection H as <-. simpl.
  exists st. auto.
Qed.

(** The projection assigns to [self.time] and to nothing else. *)
Lemma to_laser_scan_state (self : Scan.t) (frame : string) (queue : Z) :
  exists now, snd (Scan.to_laser_scan self frame queue) = Scan.set_time self now.
Proof.
  unfold Scan.to_laser_scan.
  destruct ((len (Scan.slices self) <? queue) || Scan.empty self);
    [exists (Scan.time self); symmetry; apply set_time_same|].
  destruct (Scan.scan_time _) as [stime|e];
    [|exists (Scan.time self); symmetry; apply set_time_same].
  destruct (Scan.duration_from_sec _) as [d|e];
    [|exists (Scan.time self); symmetry; apply set_time_same].
  exists (Scan.time self + d).
  destruct (Scan.build_scan _ _ _ _ _); reflexivity.
Qed.

Lemma to_laser_scan_none (self : Scan.t) (frame : string) (queue : Z) :
  fst (Scan.to_laser_scan self frame queue) = Ok None <->
  Scan.slices self = [] \/ len (Scan.slices self) < queue.
Proof.
  rewrite <- guard_spec. unfold Scan.to_laser_scan.
  destruct ((len (Scan.slices self) <? queue) || Scan.empty self);
    [split; reflexivity|].
  split; [|discriminate].
  destruct (Scan.scan_time _) as [stime|e]; [|discriminate].
  destruct (Scan.duration_from_sec _) as [d|e]; [|discriminate].
  destruct (Scan.build_scan _ _ _ _ _); discriminate.
Qed.

Lemma to_laser_scan_some (self : Scan.t) (frame : string) (queue : Z)
  (scan : LaserScan.t) :
  fst (Scan.to_laser_scan self frame queue) = Ok (Some scan) ->
  exists st,
    Scan.steps self = Some st /\ st <> 0 /\
    Scan.write_slices st (Scan.queued_slices self queue)
      (Scan.zero_ranges (6400 / st)) (Scan.zero_intensities (6400 / st))
    = Ok (LaserScan.ranges scan, LaserScan.intensities scan).
Proof.
  unfold Scan.to_laser_scan.
  destruct ((len (Scan.slices self) <? queue) || Scan.empty self); [discriminate|].
  destruct (Scan.scan_time _) as [stime|e]; [|discriminate].
  destruct (Scan.duration_from_sec _) as [d|e]; [|discriminate].
  destruct (Scan.build_scan _ _ _ _ _) as [scan'|e] eqn:Hb; [|discriminate].
  intros H. injection H as <-.
  apply build_scan_ok in Hb. exact Hb.
Qed.

(** ** What every reachable scan satisfies *)

Lemma ne_int_false (a : Z) (b : option Z) : Scan.ne_int a b = false -> b = Some a.
Proof.
  destruct b as [b|]; simpl; [|discriminate].
  intros H. apply negb_false_iff, Z.eqb_eq in H. congruence.
Qed.

Lemma different_scan_false (self : Scan.t) (sl : Slice.t) :
  Scan.different_scan self sl = false ->
  Scan.steps self = Some (Slice.steps sl) /\
  Scan.left_limit self = Some (Slice.left_limit sl) /\
  Scan.right_limit self = Some (Slice.right_limit sl).
Proof.
  unfold Scan.different_scan. intros H.
  repeat (apply orb_false_iff in H as [H ?]).
  repeat split; apply ne_int_false; assumption.
Qed.

Lemma add_inv (self self' : Scan.t) (sl : Slice.t) :
  Scan.add self sl = Ok self' ->
  (Scan.different_scan self sl = true /\
   Scan.slices self' = [sl] /\
   Scan.steps self' = Some (Slice.steps sl) /\
   Scan.left_limit self' = Some (Slice.left_limit sl) /\
   Scan.right_limit self' = Some (Slice.right_limit sl))
  \/
  (Scan.different_scan self sl = false /\
   Scan.steps self' = Scan.steps self /\
   Scan.left_limit self' = Scan.left_limit self /\
   Scan.right_limit self' = Scan.right_limit self /\
   ((Scan.full self = Ok true /\
     exists oldest rest,
       Scan.slices self = oldest :: rest /\ Scan.slices self' = rest ++ [sl])
    \/
    (Scan.full self = Ok false /\ Scan.slices self' = Scan.slices self ++ [sl]))).
Proof.
  unfold Scan.add. destruct (Scan.different_scan self sl) eqn:Hd.
  - intros H; injection H as <-. left. simpl. auto 10.
  - intros H. apply bind_ok in H as ([|] & Hf & H); right.
    + destruct (Scan.slices self) as [|oldest rest] eqn:Hs; [discriminate|].
      injection H as <-. simpl. repeat split. left. split; [assumption|].
      exists oldest, rest. auto.
    + injection H as <-. simpl. repeat split. right. auto.
Qed.

Lemma reachable_shaped (self : Scan.t) : Scan.reachable self -> shaped self.
Proof.
  induction 1 as [now | self sl self' Hreach IH Hadd | self frame queue Hreach IH];
    unfold shaped in *.
  - simpl. discriminate.
  - intros st Hst.
    apply add_inv in Hadd
        as [(_ & Hs & _ & Hl & Hr) | (Hd & Hs & Hl & Hr & Hcase)].
    + rewrite Hs, Hl, Hr. split; [discriminate | eauto].
    + rewrite Hs in Hst. destruct (IH st Hst) as (_ & r & l & Hr' & Hl').
      rewrite Hl, Hr. split; [| eauto].
      destruct Hcase as [(_ & oldest & rest & _ & ->) | (_ & ->)];
        intros Hnil; apply app_eq_nil in Hnil as [_ Hnil]; discriminate.
  - destruct (to_laser_scan_state self frame queue) as (now & ->). simpl. exact IH.
Qed.

Lemma capacity_full (self : Scan.t) (c : Z) :
  Scan.capacity self = Some c ->
  Scan.full self = Ok (len (Scan.slices self) =? c).
Proof.
  unfold Scan.capacity, Scan.full.
  destruct (Scan.steps self) as [st|]; [|discriminate].
  destruct (Scan.right_limit self) as [r|]; [|discriminate].
  destruct (Scan.left_limit self) as [l|]; [|discriminate].
  destruct (st =? 0); [discriminate|].
  intros H; injection H as <-. reflexivity.
Qed.

Lemma capacity_set_time (self : Scan.t) (now : Z) :
  Scan.capacity (Scan.set_time self now) = Scan.capacity self.
Proof. reflexivity. Qed.

(** ** The sample slices are parsed slices *)

Lemma sample_slice_parsed cos sin (timestamp left_limit right_limit steps heading bin : Z)
  (points : list Point32) :
  Slice.to_points cos sin 10 heading 1 = Ok points ->
  Slice.__init__ cos sin
    (Sample.row timestamp left_limit right_limit steps heading 1 [bin])
    1 50 0x1p-1
  = Ok (Sample.slice timestamp left_limit right_limit steps heading bin points).
Proof.
  intros Hp. unfold Slice.__init__, Sample.row.
  cbn [Row.sof Row.timestamp Row.node Row.status Row.hdctrl Row.range Row.gain
       Row.slope Row.ad_low Row.ad_span Row.left_limit Row.right_limit
       Row.steps Row.heading Row.num_bins Row.data].
  change (100 / 10)%float with 10%float. rewrite Hp.
  change (Slice.min_range 1 10 1) with (@Ok Z 0).
  cbn [bind]. unfold Slice.masked, enumerate. cbn [enumerate_from map].
  rewrite andb_false_r.
  reflexivity.
Qed.

Lemma sample_point_0 cos sin :
  cos 0%float = 1%float -> sin 0%float = 0%float ->
  Slice.to_points cos sin 10 0 1 = Ok [Sample.point_0].
Proof.
  intros Hc Hs. unfold Slice.to_points.
  change (fdiv 10 (float_of_int 1)) with (@Ok float 10%float). simpl.
  change (sonar_angle_to_rad 0) with 0%float. rewrite Hc, Hs.
  reflexivity.
Qed.

Lemma to_laser_scan_some_time (self : Scan.t) (frame : string) (queue : Z)
  (scan : LaserScan.t) :
  fst (Scan.to_laser_scan self frame queue) = Ok (Some scan) ->
  exists d,
    Scan.duration_from_sec (LaserScan.time_increment scan) = Ok d /\
    snd (Scan.to_laser_scan self frame queue) = Scan.set_time self (Scan.time self + d).
Proof.
  unfold Scan.to_laser_scan.
  destruct ((len (Scan.slices self) <? queue) || Scan.empty self); [discriminate|].
  destruct (Scan.scan_time _) as [stime|e]; [|discriminate].
  destruct (Scan.duration_from_sec _) as [d|e] eqn:Hd; [|discriminate].
  destruct (Scan.build_scan _ _ _ _ _) as [scan'|e] eqn:Hb; [|discriminate].
  simpl. intros H. injection H as <-.
  exists d. split; [|reflexivity].
  unfold Scan.build_scan in Hb. simpl in Hb.
  destruct (Scan.steps self) as [st|]; [|discriminate].
  destruct (st =? 0); [discriminate|].
  apply bind_ok in Hb as (filled & _ & Hb). injection Hb as <-. exact Hd.
Qed.

Lemma to_laser_scan_few (self : Scan.t) (frame : string) (queue : Z) :
  len (Scan.queued_slices self queue) <= 1 ->
  snd (Scan.to_laser_scan self frame queue) = self.
Proof.
  intros Hfew. unfold Scan.to_laser_scan.
  destruct ((len (Scan.slices self) <? queue) || Scan.empty self); [reflexivity|].
  destruct (Scan.scan_time _) as [stime|e]; [|reflexivity].
  unfold Scan.time_increment.
  replace (1 <? len (Scan.queued_slices self queue)) with false
    by (symmetry; apply Z.ltb_ge; assumption).
  change (Scan.duration_from_sec 0) with (@Ok Z 0). cbv beta iota zeta.
  rewrite Z.add_0_r, set_time_same.
  destruct (Scan.build_scan _ _ _ _ _); reflexivity.
Qed.

Lemma queued_slices_length (self : Scan.t) (queue : Z) :
  0 <= queue <= len (Scan.slices self) ->
  len (Scan.queued_slices self queue) =
    if queue =? 0 then len (Scan.slices self) else queue.
Proof.
  intros H. unfold Scan.queued_slices.
  rewrite slice_from_length; unfold len in *; rewrite sorted_length; [reflexivity | lia].
Qed.

(** When the projection returns a result. *)
Lemma to_laser_scan_total (self : Scan.t) (frame : string) (queue st : Z)
  (stime : float) (d : Z) :
  ~ (Scan.slices self = [] \/ len (Scan.slices self) < queue) ->
  Scan.steps self = Some st ->
  st <> 0 ->
  Scan.scan_time (Scan.queued_slices self queue) = Ok stime ->
  Scan.duration_from_sec
    (Scan.time_increment (Scan.queued_slices self queue) stime) = Ok d ->
  (forall x, In x (Scan.queued_slices self queue) ->
             - Z.max 0 (6400 / st) <= Slice.heading x / st < Z.max 0 (6400 / st)) ->
  exists scan, fst (Scan.to_laser_scan self frame queue) = Ok (Some scan).
Proof.
  intros Hguard Hst Hnz Hstime Hd Hall.
  unfold Scan.to_laser_scan.
  destruct ((len (Scan.slices self) <? queue) || Scan.empty self) eqn:G;
    [apply guard_spec in G; contradiction|].
  rewrite Hstime, Hd. unfold Scan.build_scan. simpl. rewrite Hst.
  replace (st =? 0) with false by (symmetry; apply Z.eqb_neq; assumption).
  destruct (write_slices_total st (Z.max 0 (6400 / st))
              (Scan.queued_slices self queue)
              (Scan.zero_ranges (6400 / st)) (Scan.zero_intensities (6400 / st)))
    as (filled & Hw);
    [apply len_zero_ranges | apply len_zero_intensities | assumption |].
  rewrite Hw. simpl. eexists; reflexivity.
Qed.

(** * The claims *)

(** ** Slice parser *)

(** C2, as the specification words it, fails on [Sample.weak_row] with
    [min_distance = 1], [min_intensity = 50] and a threshold of 1000:
    both bins are masked, the first maximum of the masked bins is bin 0
    with masked value 0, and the parser stores 10, the raw value of that
    bin, whatever [cos] and [sin] are. *)
Lemma C2_counterexample :
  ~ exists cos sin, Spec.default_choice cos sin Sample.weak_row 1 50 1000.
Proof.
  intros (cos & sin & H).
  assert (E : exists self,
             Slice.__init__ cos sin Sample.weak_row 1 50 1000 = Ok self /\
             Slice.data self = [10; 20] /\
             Slice.range self = 10%float /\
             Slice.num_bins self = 2 /\
             Slice.max_intensity self = 10).
  { eexists. split; [vm_compute; reflexivity | repeat split]. }
  destruct E as (self & Hinit & Hdata & Hrange & Hbins & Hint).
  destruct (H self 0) as (i & (Hi & _) & _ & Hval).
  - reflexivity.
  - vm_compute; reflexivity.
  - exact Hinit.
  - rewrite Hrange, Hbins. vm_compute; reflexivity.
  - rewrite Hdata. vm_compute. repeat constructor.
  - rewrite Hdata, Hint in Hval.
    change (Spec.masked_bins [10; 20] 50 0) with [0; 0] in Hval.
    destruct (Z.to_nat i) as [|[|[|k]]]; simpl in Hval; discriminate.
Qed.

(** C2, amended: when the construction succeeds and no masked bin is
    over the threshold, the chosen range is that of the first maximum
    [i] of the masked bins (masked with the cut-off index
    [int(min_distance / range * num_bins)], which truncates toward
    zero), and the chosen intensity is the raw value of bin [i]; it is
    the masked value whenever that is not zero. *)
Theorem C2_default_choice cos sin (row : Row.t) (md mi th : float)
  (self : Slice.t) (mr : Z) :
  Slice.__init__ cos sin row md mi th = Ok self ->
  Slice.min_range md (Slice.range self) (Slice.num_bins self) = Ok mr ->
  Forall (fun v => int_gt_float v th = false)
         (Slice.masked (Slice.data self) mi mr) ->
  exists i,
    first_max (Slice.masked (Slice.data self) mi mr) i /\
    Slice.max self = Slice.range_of_bin i (Slice.range self) (Slice.num_bins self) /\
    Slice.max_intensity self = nth (Z.to_nat i) (Slice.data self) 0 /\
    (nth (Z.to_nat i) (Slice.masked (Slice.data self) mi mr) 0 <> 0 ->
     Slice.max_intensity self =
       nth (Z.to_nat i) (Slice.masked (Slice.data self) mi mr) 0).
Proof.
  intros Hinit Hmr Hnone.
  apply init_inv in Hinit as (_ & _ & _ & mr' & am & Hmr' & Ham & Hsel).
  rewrite Hmr in Hmr'. injection Hmr' as <-.
  apply (first_over_from_none _ _ 0) in Hnone.
  unfold Slice.first_over in Hsel. rewrite Hnone in Hsel.
  destruct Hsel as [Hmax Hraw].
  pose proof (argmax_first_max _ _ Ham) as Hfm.
  assert (Hin : 0 <= am < len (Slice.data self)).
  { destruct Hfm as (Hi & _). unfold len in *. rewrite masked_length in Hi. exact Hi. }
  rewrite getitem_in_range in Hraw by assumption. injection Hraw as Hraw.
  exists am. repeat split; try apply Hfm; auto.
  intros Hnz. rewrite masked_nonzero_raw; auto. unfold len in Hin. lia.
Qed.

(** An example of the specification's section 8 is an instance of C2:
    bin 3 is chosen, with range 8 and intensity 80. *)
Lemma C2_default_choice_witness :
  exists cos sin self,
    Slice.__init__ cos sin Sample.strong_row 1 50 1000 = Ok self /\
    Slice.max self = 8%float /\
    Slice.max_intensity self = 80 /\
    exists i,
      first_max (Slice.masked (Slice.data self) 50 0) i /\
      Slice.max self = Slice.range_of_bin i (Slice.range self) (Slice.num_bins self) /\
      Slice.max_intensity self = nth (Z.to_nat i) (Slice.data self) 0 /\
      (nth (Z.to_nat i) (Slice.masked (Slice.data self) 50 0) 0 <> 0 ->
       Slice.max_intensity self =
         nth (Z.to_nat i) (Slice.masked (Slice.data self) 50 0) 0).
Proof.
  exists (fun _ => 1%float), (fun _ => 0%float).
  eexists. split; [vm_compute; reflexivity|].
  split; [vm_compute; reflexivity|].
  split; [vm_compute; reflexivity|].
  apply (C2_default_choice (fun _ => 1%float) (fun _ => 0%float)
           Sample.strong_row 1 50 1000 _ 0).
  - vm_compute; reflexivity.
  - vm_compute; reflexivity.
  - vm_compute. repeat constructor.
Defined.

(** C3, as the specification words it, fails on [Sample.weak_row] with
    [min_intensity = 50] and a threshold of -1: both bins are masked to
    0, which is over the threshold, so bin 0 is chosen; its masked value
    is 0 and the parser stores its raw value 10. *)
Lemma C3_counterexample :
  ~ exists cos sin, Spec.override_choice cos sin Sample.weak_row 1 50 (-1).
Proof.
  intros (cos & sin & H).
  assert (E : exists self,
             Slice.__init__ cos sin Sample.weak_row 1 50 (-1) = Ok self /\
             Slice.data self = [10; 20] /\
             Slice.range self = 10%float /\
             Slice.num_bins self = 2 /\
             Slice.max_intensity self = 10).
  { eexists. split; [vm_compute; reflexivity | repeat split]. }
  destruct E as (self & Hinit & Hdata & Hrange & Hbins & Hint).
  destruct (H self 0) as (i & _ & _ & Hval).
  - exact Hinit.
  - rewrite Hrange, Hbins. vm_compute; reflexivity.
  - rewrite Hdata. vm_compute. constructor. reflexivity.
  - rewrite Hdata, Hint in Hval.
    change (Spec.masked_bins [10; 20] 50 0) with [0; 0] in Hval.
    destruct (Z.to_nat i) as [|[|[|k]]]; simpl in Hval; discriminate.
Qed.

(** C3, amended: when the construction succeeds and some masked bin is
    over the threshold, the lowest such bin [i] is chosen, whatever the
    maximum is: the chosen range is [(i+1) * range / num_bins] and the
    chosen intensity is the raw value of bin [i], which is its masked
    value whenever that is not zero (always so for a threshold that is
    not negative). *)
Theorem C3_override_choice cos sin (row : Row.t) (md mi th : float)
  (self : Slice.t) (mr : Z) :
  Slice.__init__ cos sin row md mi th = Ok self ->
  Slice.min_range md (Slice.range self) (Slice.num_bins self) = Ok mr ->
  Exists (fun v => int_gt_float v th = true)
         (Slice.masked (Slice.data self) mi mr) ->
  exists i,
    nearest_over (Slice.masked (Slice.data self) mi mr) th i /\
    Slice.max self = Slice.range_of_bin i (Slice.range self) (Slice.num_bins self) /\
    Slice.max_intensity self = nth (Z.to_nat i) (Slice.data self) 0 /\
    (nth (Z.to_nat i) (Slice.masked (Slice.data self) mi mr) 0 <> 0 ->
     Slice.max_intensity self =
       nth (Z.to_nat i) (Slice.masked (Slice.data self) mi mr) 0) /\
    (int_gt_float 0 th = false ->
     Slice.max_intensity self =
       nth (Z.to_nat i) (Slice.masked (Slice.data self) mi mr) 0).
Proof.
  intros Hinit Hmr Hsome.
  apply init_inv in Hinit as (_ & _ & _ & mr' & am & Hmr' & _ & Hsel).
  rewrite Hmr in Hmr'. injection Hmr' as <-.
  apply exists_over_first_over in Hsome as (i & Hi).
  rewrite Hi in Hsel. destruct Hsel as [Hmax Hraw].
  pose proof (first_over_nearest _ _ _ Hi) as Hnear.
  assert (Hin : 0 <= i < len (Slice.data self)).
  { destruct Hnear as (Hr & _). unfold len in *. rewrite masked_length in Hr. exact Hr. }
  rewrite getitem_in_range in Hraw by assumption. injection Hraw as Hraw.
  assert (Hnz : nth (Z.to_nat i) (Slice.masked (Slice.data self) mi mr) 0 <> 0 ->
                Slice.max_intensity self =
                  nth (Z.to_nat i) (Slice.masked (Slice.data self) mi mr) 0).
  { intros Hnz. rewrite masked_nonzero_raw; auto. unfold len in Hin. lia. }
  exists i. repeat split; try apply Hnear; auto.
  intros Hth. apply Hnz. intros Hz.
  destruct Hnear as (_ & Hgt & _). rewrite Hz in Hgt. congruence.
Qed.

(** An example of the specification's section 8 is an instance of C3:
    with a threshold of 55, bin 1 (value 60) is chosen although bin 3
    holds 80. *)
Lemma C3_override_choice_witness :
  exists cos sin self,
    Slice.__init__ cos sin Sample.strong_row 1 50 55 = Ok self /\
    Slice.max self = 4%float /\
    Slice.max_intensity self = 60 /\
    exists i,
      nearest_over (Slice.masked (Slice.data self) 50 0) 55 i /\
      Slice.max self = Slice.range_of_bin i (Slice.range self) (Slice.num_bins self) /\
      Slice.max_intensity self = nth (Z.to_nat i) (Slice.data self) 0 /\
      (nth (Z.to_nat i) (Slice.masked (Slice.data self) 50 0) 0 <> 0 ->
       Slice.max_intensity self =
         nth (Z.to_nat i) (Slice.masked (Slice.data self) 50 0) 0) /\
      (int_gt_float 0 55 = false ->
       Slice.max_intensity self =
         nth (Z.to_nat i) (Slice.masked (Slice.data self) 50 0) 0).
Proof.
  exists (fun _ => 1%float), (fun _ => 0%float).
  eexists. split; [vm_compute; reflexivity|].
  split; [vm_compute; reflexivity|].
  split; [vm_compute; reflexivity|].
  apply (C3_override_choice (fun _ => 1%float) (fun _ => 0%float)
           Sample.strong_row 1 50 55 _ 0).
  - vm_compute; reflexivity.
  - vm_compute; reflexivity.
  - vm_compute. right. left. reflexivity.
Defined.

(** C10: when the construction succeeds, every masked bin is zero and
    none is over the threshold, bin 0 is chosen: the chosen range is
    [range / num_bins] and the chosen intensity is the raw value of
    bin 0, masked or not. *)
Theorem C10_all_masked_chooses_bin_0 cos sin (row : Row.t) (md mi th : float)
  (self : Slice.t) (mr : Z) :
  Slice.__init__ cos sin row md mi th = Ok self ->
  Slice.min_range md (Slice.range self) (Slice.num_bins self) = Ok mr ->
  Forall (fun v => v = 0) (Slice.masked (Slice.data self) mi mr) ->
  Forall (fun v => int_gt_float v th = false)
         (Slice.masked (Slice.data self) mi mr) ->
  Slice.max self = (Slice.range self / float_of_int (Slice.num_bins self))%float /\
  exists raw rest,
    Slice.data self = raw :: rest /\ Slice.max_intensity self = raw.
Proof.
  intros Hinit Hmr Hzero Hnone.
  apply init_inv in Hinit as (_ & _ & _ & mr' & am & Hmr' & Ham & Hsel).
  rewrite Hmr in Hmr'. injection Hmr' as <-.
  apply (first_over_from_none _ _ 0) in Hnone.
  unfold Slice.first_over in Hsel. rewrite Hnone in Hsel.
  destruct Hsel as [Hmax Hraw].
  pose proof (argmax_all_zero _ _ Hzero Ham) as ->.
  split; [rewrite Hmax; apply range_of_bin_0|].
  destruct (Slice.data self) as [|raw rest] eqn:Hdata.
  - discriminate Ham.
  - exists raw, rest. split; [reflexivity|].
    unfold getitem, resolve, len in Hraw. simpl in Hraw.
    destruct (Z.pos (Pos.of_succ_nat (length rest))); simpl in Hraw; congruence.
Qed.

(** On [Sample.weak_row] the raw value so chosen is 10: not zero, and
    not over the [min_intensity] of 50. *)
Lemma C10_all_masked_chooses_bin_0_witness :
  exists cos sin self,
    Slice.__init__ cos sin Sample.weak_row 1 50 1000 = Ok self /\
    Slice.max_intensity self = 10 /\
    int_gt_float 10 50 = false /\
    Slice.max self = 5%float /\
    Slice.max self = (Slice.range self / float_of_int (Slice.num_bins self))%float /\
    exists raw rest,
      Slice.data self = raw :: rest /\ Slice.max_intensity self = raw.
Proof.
  exists (fun _ => 1%float), (fun _ => 0%float).
  eexists. split; [vm_compute; reflexivity|].
  split; [vm_compute; reflexivity|].
  split; [vm_compute; reflexivity|].
  split; [vm_compute; reflexivity|].
  apply (C10_all_masked_chooses_bin_0 (fun _ => 1%float) (fun _ => 0%float)
           Sample.weak_row 1 50 1000 _ 0).
  - vm_compute; reflexivity.
  - vm_compute; reflexivity.
  - vm_compute. repeat constructor.
  - vm_compute. repeat constructor.
Defined.

(** ** Scan aggregator *)

(** C5: a slice that differs from the scan in one of the six shape
    fields (as [!=] compares them, a field still [None] differing from
    everything) resets the scan: [add] returns, the buffer is that slice
    alone and the shape fields are the slice's. *)
Theorem C5_different_shape_resets (self : Scan.t) (sl : Slice.t) :
  Scan.ne_float (Slice.range sl) (Scan.range self) = true \/
  Scan.ne_int (Slice.num_bins sl) (Scan.num_bins self) = true \/
  Scan.ne_int (Slice.steps sl) (Scan.steps self) = true \/
  Scan.ne_int (Slice.left_limit sl) (Scan.left_limit self) = true \/
  Scan.ne_int (Slice.right_limit sl) (Scan.right_limit self) = true \/
  Scan.ne_bool (Slice.clockwise sl) (Scan.clockwise self) = true ->
  exists self',
    Scan.add self sl = Ok self' /\
    Scan.slices self' = [sl] /\
    Scan.range self' = Some (Slice.range sl) /\
    Scan.num_bins self' = Some (Slice.num_bins sl) /\
    Scan.steps self' = Some (Slice.steps sl) /\
    Scan.left_limit self' = Some (Slice.left_limit sl) /\
    Scan.right_limit self' = Some (Slice.right_limit sl) /\
    Scan.clockwise self' = Some (Slice.clockwise sl).
Proof.
  intros H.
  assert (Hd : Scan.different_scan self sl = true).
  { unfold Scan.different_scan. rewrite !orb_true_iff. tauto. }
  unfold Scan.add. rewrite Hd.
  eexists. split; [reflexivity|]. simpl. repeat split.
Qed.

(** A slice of steps 8 arriving in a scan of steps 16. *)
Lemma C5_different_shape_resets_witness :
  exists self',
    Scan.add (Sample.scan 3199 3201 16 [Sample.slice 0 3199 3201 16 0 80 [Sample.point_0]])
             (Sample.slice 1000000 3199 3201 8 0 90 [Sample.point_0]) = Ok self' /\
    Scan.slices self' = [Sample.slice 1000000 3199 3201 8 0 90 [Sample.point_0]] /\
    Scan.range self' = Some 10%float /\
    Scan.num_bins self' = Some 1 /\
    Scan.steps self' = Some 8 /\
    Scan.left_limit self' = Some 3199 /\
    Scan.right_limit self' = Some 3201 /\
    Scan.clockwise self' = Some true.
Proof.
  apply (C5_different_shape_resets
           (Sample.scan 3199 3201 16 [Sample.slice 0 3199 3201 16 0 80 [Sample.point_0]])
           (Sample.slice 1000000 3199 3201 8 0 90 [Sample.point_0])).
  right. right. left. reflexivity.
Defined.

(** C4: in a reachable scan that has adopted a shape with [steps > 0],
    [full] answers [True] exactly when the buffer holds
    [floor(max_range / steps)] slices, [max_range] being 6400 for the
    bounds 3201 and 3199 and [(right_limit - left_limit) mod 6400]
    otherwise; and adding a slice of the same shape to a full scan drops
    the oldest slice, appends the new one and keeps the size. *)
Theorem C4_full_and_eviction (self : Scan.t) (st : Z) :
  Scan.reachable self ->
  Scan.steps self = Some st ->
  0 < st ->
  exists r l is_full,
    Scan.right_limit self = Some r /\
    Scan.left_limit self = Some l /\
    Scan.full self = Ok is_full /\
    (is_full = true <->
     len (Scan.slices self) =
       (if (r =? 3201) && (l =? 3199) then 6400 else (r - l) mod 6400) / st) /\
    forall sl,
      is_full = true ->
      Scan.different_scan self sl = false ->
      exists oldest rest self',
        Scan.slices self = oldest :: rest /\
        Scan.add self sl = Ok self' /\
        Scan.slices self' = rest ++ [sl] /\
        len (Scan.slices self') = len (Scan.slices self).
Proof.
  intros Hreach Hst Hpos.
  destruct (reachable_shaped self Hreach st Hst) as (Hne & r & l & Hr & Hl).
  assert (Hfull : Scan.full self =
                  Ok (len (Scan.slices self) =? Scan.max_range r l / st)).
  { unfold Scan.full. rewrite Hst, Hr, Hl.
    replace (st =? 0) with false by (symmetry; apply Z.eqb_neq; lia). reflexivity. }
  exists r, l, (len (Scan.slices self) =? Scan.max_range r l / st).
  split; [assumption | split; [assumption | split; [assumption | split]]].
  - rewrite Z.eqb_eq. unfold Scan.max_range. reflexivity.
  - intros sl Hf Hsame.
    destruct (Scan.slices self) as [|oldest rest] eqn:Hs; [congruence|].
    unfold Scan.add. rewrite Hsame, Hfull, Hs, Hf. simpl.
    exists oldest, rest. eexists. split; [reflexivity|].
    split; [reflexivity|]. simpl. split; [reflexivity|].
    unfold len. rewrite length_app. simpl. lia.
Qed.

(** A continuous scan in steps of 3200 is full with its two slices: the
    third evicts the first. *)
Lemma C4_full_and_eviction_witness :
  exists r l is_full,
    Scan.right_limit (Sample.scan 3199 3201 3200
                        [Sample.slice 0 3199 3201 3200 0 80 [Sample.point_0];
                         Sample.slice 1000000 3199 3201 3200 0 90 [Sample.point_0]])
      = Some r /\
    Scan.left_limit (Sample.scan 3199 3201 3200
                        [Sample.slice 0 3199 3201 3200 0 80 [Sample.point_0];
                         Sample.slice 1000000 3199 3201 3200 0 90 [Sample.point_0]])
      = Some l /\
    Scan.full (Sample.scan 3199 3201 3200
                 [Sample.slice 0 3199 3201 3200 0 80 [Sample.point_0];
                  Sample.slice 1000000 3199 3201 3200 0 90 [Sample.point_0]])
      = Ok is_full /\
    (is_full = true <->
     len (Scan.slices (Sample.scan 3199 3201 3200
                 [Sample.slice 0 3199 3201 3200 0 80 [Sample.point_0];
                  Sample.slice 1000000 3199 3201 3200 0 90 [Sample.point_0]])) =
       (if (r =? 3201) && (l =? 3199) then 6400 else (r - l) mod 6400) / 3200) /\
    forall sl,
      is_full = true ->
      Scan.different_scan (Sample.scan 3199 3201 3200
                 [Sample.slice 0 3199 3201 3200 0 80 [Sample.point_0];
                  Sample.slice 1000000 3199 3201 3200 0 90 [Sample.point_0]]) sl = false ->
      exists oldest rest self',
        Scan.slices (Sample.scan 3199 3201 3200
                 [Sample.slice 0 3199 3201 3200 0 80 [Sample.point_0];
                  Sample.slice 1000000 3199 3201 3200 0 90 [Sample.point_0]])
          = oldest :: rest /\
        Scan.add (Sample.scan 3199 3201 3200
                 [Sample.slice 0 3199 3201 3200 0 80 [Sample.point_0];
                  Sample.slice 1000000 3199 3201 3200 0 90 [Sample.point_0]]) sl
          = Ok self' /\
        Scan.slices self' = rest ++ [sl] /\
        len (Scan.slices self') =
          len (Scan.slices (Sample.scan 3199 3201 3200
                 [Sample.slice 0 3199 3201 3200 0 80 [Sample.point_0];
                  Sample.slice 1000000 3199 3201 3200 0 90 [Sample.point_0]])).
Proof.
  apply (C4_full_and_eviction
           (Sample.scan 3199 3201 3200
              [Sample.slice 0 3199 3201 3200 0 80 [Sample.point_0];
               Sample.slice 1000000 3199 3201 3200 0 90 [Sample.point_0]])
           3200).
  - apply (Scan.reach_add
             (Sample.scan 3199 3201 3200
                [Sample.slice 0 3199 3201 3200 0 80 [Sample.point_0]])
             (Sample.slice 1000000 3199 3201 3200 0 90 [Sample.point_0]));
      [| vm_compute; reflexivity].
    apply (Scan.reach_add (Scan.__init__ 0)
             (Sample.slice 0 3199 3201 3200 0 80 [Sample.point_0]));
      [apply Scan.reach_init | vm_compute; reflexivity].
  - reflexivity.
  - lia.
Defined.

(** C6, as the specification words it, fails in [Sample.narrow_sector],
    reached by one [add]: there [floor(max_range / steps)] is
    [floor(16 / 32) = 0] and the buffer holds one slice. *)
Lemma C6_counterexample :
  Scan.reachable Sample.narrow_sector /\
  Scan.capacity Sample.narrow_sector = Some 0 /\
  ~ (len (Scan.slices Sample.narrow_sector) <= 0).
Proof.
  split; [| split; [vm_compute; reflexivity | vm_compute; intros H; apply H; reflexivity]].
  apply (Scan.reach_add (Scan.__init__ 0)
           (Sample.slice 0 6392 8 32 0 80 [Sample.point_0]));
    [apply Scan.reach_init | vm_compute; reflexivity].
Qed.

(** C6, amended: in every reachable scan for which
    [floor(max_range / steps)] is at least 1, the buffer holds at most
    that many slices. *)
Theorem C6_buffer_bounded (self : Scan.t) (c : Z) :
  Scan.reachable self ->
  Scan.capacity self = Some c ->
  1 <= c ->
  len (Scan.slices self) <= c.
Proof.
  intros Hreach. revert c.
  induction Hreach as [now | self sl self' Hreach IH Hadd | self frame queue Hreach IH];
    intros c Hcap Hc.
  - unfold len; simpl; lia.
  - pose proof Hadd as Hadd'.
    apply add_inv in Hadd'
        as [(_ & Hs & _) | (Hd & Hst & Hl & Hr & Hcase)].
    + rewrite Hs. unfold len; simpl; lia.
    + assert (Hcap' : Scan.capacity self = Some c).
      { unfold Scan.capacity in *. rewrite <- Hst, <- Hl, <- Hr. exact Hcap. }
      specialize (IH c Hcap' Hc).
      rewrite (capacity_full _ _ Hcap') in Hcase.
      destruct Hcase as [(Hf & oldest & rest & Hs & ->) | (Hf & ->)];
        injection Hf as Hf; unfold len in *; rewrite length_app; simpl.
      * rewrite Hs in IH. simpl in IH. lia.
      * apply Z.eqb_neq in Hf. lia.
  - destruct (to_laser_scan_state self frame queue) as (now & Hnow).
    rewrite Hnow in *. rewrite capacity_set_time in Hcap.
    simpl. apply IH; assumption.
Qed.

(** A continuous scan in steps of 3200 holds at most two slices. *)
Lemma C6_buffer_bounded_witness :
  len (Scan.slices (Sample.scan 3199 3201 3200
                      [Sample.slice 0 3199 3201 3200 0 80 [Sample.point_0]])) <= 2.
Proof.
  apply (C6_buffer_bounded
           (Sample.scan 3199 3201 3200
              [Sample.slice 0 3199 3201 3200 0 80 [Sample.point_0]]) 2).
  - apply (Scan.reach_add (Scan.__init__ 0)
             (Sample.slice 0 3199 3201 3200 0 80 [Sample.point_0]));
      [apply Scan.reach_init | vm_compute; reflexivity].
  - vm_compute; reflexivity.
  - lia.
Defined.

(** ** Scan projector *)

(** C1, as the specification words it, fails in
    [Sample.one_second_apart], reached by two calls of [add]: the polar
    projection of the two slices adds their time increment, one second,
    to [self.time]. *)
Lemma C1_counterexample :
  Scan.reachable Sample.one_second_apart /\
  Scan.time (snd (Scan.to_laser_scan Sample.one_second_apart "odom" 0)) =
    Scan.time Sample.one_second_apart + 1000000000 /\
  snd (Scan.to_laser_scan Sample.one_second_apart "odom" 0) <> Sample.one_second_apart.
Proof.
  split; [| split].
  - apply (Scan.reach_add
             (Sample.scan 3199 3201 16 [Sample.slice 0 3199 3201 16 0 80 [Sample.point_0]])
             (Sample.slice 1000000 3199 3201 16 16 90 [Sample.point_16]));
      [| vm_compute; reflexivity].
    apply (Scan.reach_add (Scan.__init__ 0)
             (Sample.slice 0 3199 3201 16 0 80 [Sample.point_0]));
      [apply Scan.reach_init | vm_compute; reflexivity].
  - vm_compute; reflexivity.
  - intros H. apply (f_equal Scan.time) in H. vm_compute in H. discriminate.
Qed.

(** C1, amended: the point cloud projection leaves the scan as it is;
    the polar projection leaves the buffer and the six shape fields as
    they are and assigns only to [self.time], which a returned message
    advances by its time increment; the scan is left as it is when the
    projection is absent and when at most one slice is selected. *)
Theorem C1_projections_frame (self : Scan.t) (frame : string) (queue now : Z) :
  snd (Scan.to_pointcloud self frame now) = self /\
  (exists t, snd (Scan.to_laser_scan self frame queue) = Scan.set_time self t) /\
  Scan.slices (snd (Scan.to_laser_scan self frame queue)) = Scan.slices self /\
  (forall scan,
     fst (Scan.to_laser_scan self frame queue) = Ok (Some scan) ->
     exists d,
       Scan.duration_from_sec (LaserScan.time_increment scan) = Ok d /\
       snd (Scan.to_laser_scan self frame queue) =
         Scan.set_time self (Scan.time self + d)) /\
  (fst (Scan.to_laser_scan self frame queue) = Ok None ->
   snd (Scan.to_laser_scan self frame queue) = self) /\
  (len (Scan.queued_slices self queue) <= 1 ->
   snd (Scan.to_laser_scan self frame queue) = self).
Proof.
  split; [reflexivity|].
  split; [apply to_laser_scan_state|].
  split; [destruct (to_laser_scan_state self frame queue) as (t & ->); reflexivity|].
  split; [apply to_laser_scan_some_time|].
  split; [| apply to_laser_scan_few].
  intros H. apply to_laser_scan_none, guard_spec in H.
  unfold Scan.to_laser_scan. rewrite H. reflexivity.
Qed.

(** C7, as the specification words it, fails in [Sample.full_turn], the
    scan after a first slice at heading 6400 in steps of 16: the buffer
    is not empty, and the projection raises [IndexError] on bucket 400
    of 400 instead of returning a result. *)
Lemma C7_counterexample :
  Scan.reachable Sample.full_turn /\
  fst (Scan.to_laser_scan Sample.full_turn "odom" 0) = Raise IndexError /\
  ~ Spec.polar_projection Sample.full_turn "odom" 0.
Proof.
  split; [| split].
  - apply (Scan.reach_add (Scan.__init__ 0)
             (Sample.slice 0 3199 3201 16 6400 80 [Sample.point_6400]));
      [apply Scan.reach_init | vm_compute; reflexivity].
  - vm_compute; reflexivity.
  - intros H. destruct (H ltac:(lia)) as [_ H'].
    destruct H' as (scan & st & Hres & _).
    + intros [Hnil | Hlt]; [discriminate Hnil | vm_compute in Hlt; discriminate Hlt].
    + vm_compute in Hres. discriminate Hres.
Qed.

(** C7, amended: for [queue >= 0] the polar projection is absent exactly
    when the buffer is empty or holds fewer than [queue] slices; a
    result it returns has [max(0, floor(6400 / steps))] ranges and as
    many intensities, 0 in every bucket that no selected slice is
    written to; and it does return a result when the buffer passes the
    guard, [steps] is not 0, the time increment converts to a duration
    and the bucket index of every selected slice is a valid subscript. *)
Theorem C7_polar_projection (self : Scan.t) (frame : string) (queue : Z) :
  0 <= queue ->
  (fst (Scan.to_laser_scan self frame queue) = Ok None <->
   Scan.slices self = [] \/ len (Scan.slices self) < queue) /\
  (forall scan,
     fst (Scan.to_laser_scan self frame queue) = Ok (Some scan) ->
     exists st,
       Scan.steps self = Some st /\ st <> 0 /\
       len (LaserScan.ranges scan) = Z.max 0 (6400 / st) /\
       len (LaserScan.intensities scan) = Z.max 0 (6400 / st) /\
       forall p,
         (forall x, In x (Scan.queued_slices self queue) ->
                    Scan.bucket (Z.max 0 (6400 / st)) st x <> Ok p) ->
         nth p (LaserScan.ranges scan) 0%float = 0%float /\
         nth p (LaserScan.intensities scan) 0 = 0) /\
  (forall st stime d,
     ~ (Scan.slices self = [] \/ len (Scan.slices self) < queue) ->
     Scan.steps self = Some st ->
     st <> 0 ->
     Scan.scan_time (Scan.queued_slices self queue) = Ok stime ->
     Scan.duration_from_sec
       (Scan.time_increment (Scan.queued_slices self queue) stime) = Ok d ->
     (forall x, In x (Scan.queued_slices self queue) ->
                - Z.max 0 (6400 / st) <= Slice.heading x / st < Z.max 0 (6400 / st)) ->
     exists scan, fst (Scan.to_laser_scan self frame queue) = Ok (Some scan)).
Proof.
  intros Hq. split; [apply to_laser_scan_none | split].
  - intros scan Hres.
    apply to_laser_scan_some in Hres as (st & Hst & Hnz & Hw).
    exists st. split; [assumption | split; [assumption|]].
    pose proof (write_slices_untouched st (Z.max 0 (6400 / st)) _ _ _ _ _ 0%nat
                  (len_zero_ranges _) (len_zero_intensities _) Hw) as (Hr & Hi & _).
    split; [assumption | split; [assumption|]].
    intros p Hfree.
    destruct (write_slices_untouched st (Z.max 0 (6400 / st)) _ _ _ _ _ p
                (len_zero_ranges _) (len_zero_intensities _) Hw) as (_ & _ & Hnth).
    destruct (Hnth Hfree) as [-> ->].
    split; [apply nth_zero_ranges | apply nth_zero_intensities].
  - intros st stime d. apply to_laser_scan_total.
Qed.

(** The full projection of [Sample.one_second_apart]: 400 buckets, all
    0 but buckets 0 and 1. *)
Lemma C7_polar_projection_witness :
  exists scan,
    fst (Scan.to_laser_scan Sample.one_second_apart "odom" 0) = Ok (Some scan) /\
    len (LaserScan.ranges scan) = 400 /\
    len (LaserScan.intensities scan) = 400 /\
    nth 0 (LaserScan.ranges scan) 0%float = 10%float /\
    nth 1 (LaserScan.intensities scan) 0 = 90 /\
    nth 2 (LaserScan.ranges scan) 0%float = 0%float.
Proof.
  destruct (C7_polar_projection Sample.one_second_apart "odom" 0 ltac:(lia))
    as (_ & _ & Htotal).
  destruct (Htotal 16 1%float 1000000000) as (scan & Hscan).
  - intros [Hnil | Hlt]; [discriminate Hnil | vm_compute in Hlt; discriminate Hlt].
  - reflexivity.
  - lia.
  - vm_compute; reflexivity.
  - vm_compute; reflexivity.
  - intros x Hx. vm_compute in Hx.
    destruct Hx as [<- | [<- | []]]; vm_compute;
      (split; [intros H; discriminate H | reflexivity]).
  - exists scan. split; [exact Hscan|].
    vm_compute in Hscan. injection Hscan as <-.
    repeat split; vm_compute; reflexivity.
Defined.

(** C8, as the specification words it, fails in
    [Sample.across_midnight], whose two slices share bucket 0: the
    projection writes the selected slices in the order of their time
    stamps, so the slice inserted first, stamped 23:59:59, is written
    last and bucket 0 holds its intensity 80, not the 90 of the slice
    inserted last. *)
Lemma C8_counterexample :
  Scan.reachable Sample.across_midnight /\
  (exists scan,
     fst (Scan.to_laser_scan Sample.across_midnight "odom" 0) = Ok (Some scan) /\
     nth 0 (LaserScan.intensities scan) 0 = 80) /\
  ~ Spec.last_inserted_wins Sample.across_midnight "odom" 0.
Proof.
  split; [| split].
  - apply (Scan.reach_add
             (Sample.scan 3199 3201 16
                [Sample.slice 86399000000 3199 3201 16 0 80 [Sample.point_0]])
             (Sample.slice 1000000 3199 3201 16 0 90 [Sample.point_0]));
      [| vm_compute; reflexivity].
    apply (Scan.reach_add (Scan.__init__ 0)
             (Sample.slice 86399000000 3199 3201 16 0 80 [Sample.point_0]));
      [apply Scan.reach_init | vm_compute; reflexivity].
  - eexists. split; [vm_compute; reflexivity | reflexivity].
  - intros H.
    assert (E : exists scan,
               fst (Scan.to_laser_scan Sample.across_midnight "odom" 0) = Ok (Some scan) /\
               len (LaserScan.ranges scan) = 400 /\
               nth 0 (LaserScan.intensities scan) 0 = 80).
    { eexists. split; [vm_compute; reflexivity | split; reflexivity]. }
    destruct E as (scan & Hscan & Hlen & Hbucket).
    destruct (H scan 16
                [Sample.slice 86399000000 3199 3201 16 0 80 [Sample.point_0]]
                (Sample.slice 1000000 3199 3201 16 0 90 [Sample.point_0])
                [] 0%nat) as [_ Hint].
    + exact Hscan.
    + reflexivity.
    + reflexivity.
    + vm_compute. left. reflexivity.
    + rewrite Hlen. vm_compute; reflexivity.
    + eexists. split; [left; reflexivity|].
      split; [vm_compute; right; left; reflexivity|].
      rewrite Hlen. vm_compute; reflexivity.
    + intros x [].
    + rewrite Hbucket in Hint. discriminate Hint.
Qed.

(** C8, amended: the selected slices are written in the order of their
    time stamps (slices with equal stamps in insertion order), and a
    selected slice that no later slice of that order shares its bucket
    with supplies the bucket's range and intensity.  That order is the
    insertion order when the buffered time stamps never decrease. *)
Theorem C8_last_write_wins (self : Scan.t) (frame : string) (queue : Z)
  (scan : LaserScan.t) (before : list Slice.t) (sl : Slice.t) (after : list Slice.t) :
  fst (Scan.to_laser_scan self frame queue) = Ok (Some scan) ->
  Scan.queued_slices self queue = before ++ sl :: after ->
  (exists st k,
     Scan.steps self = Some st /\
     Scan.bucket (len (LaserScan.ranges scan)) st sl = Ok k /\
     ((forall x, In x after ->
                 Scan.bucket (len (LaserScan.ranges scan)) st x <> Ok k) ->
      nth k (LaserScan.ranges scan) 0%float = Slice.max sl /\
      nth k (LaserScan.intensities scan) 0 = Slice.max_intensity sl)) /\
  (exists dropped,
     sorted Slice.timestamp (Scan.slices self) = dropped ++ before ++ sl :: after) /\
  StronglySorted (fun a b => Slice.timestamp a <= Slice.timestamp b)
    (sorted Slice.timestamp (Scan.slices self)) /\
  (forall t,
     filter (fun a => Slice.timestamp a =? t) (sorted Slice.timestamp (Scan.slices self)) =
     filter (fun a => Slice.timestamp a =? t) (Scan.slices self)) /\
  (StronglySorted (fun a b => Slice.timestamp a <= Slice.timestamp b) (Scan.slices self) ->
   exists dropped, Scan.slices self = dropped ++ before ++ sl :: after).
Proof.
  intros Hres Hq.
  assert (Hsuffix : exists dropped,
             sorted Slice.timestamp (Scan.slices self) = dropped ++ before ++ sl :: after).
  { rewrite <- Hq. apply slice_from_suffix. }
  split; [| split; [exact Hsuffix | split; [apply sorted_sorted | split]]].
  - apply to_laser_scan_some in Hres as (st & Hst & Hnz & Hw).
    pose proof (write_slices_untouched st (Z.max 0 (6400 / st)) _ _ _ _ _ 0%nat
                  (len_zero_ranges _) (len_zero_intensities _) Hw) as (Hr & _).
    rewrite Hq in Hw.
    apply (write_slices_last st (Z.max 0 (6400 / st))) in Hw as (k & Hk & Hlast);
      [| apply len_zero_ranges | apply len_zero_intensities].
    exists st, k. rewrite Hr. auto.
  - intros t. apply sorted_stable.
  - intros Hsorted. rewrite (sorted_id _ _ Hsorted) in Hsuffix. exact Hsuffix.
Qed.

(** In [Sample.across_midnight] the slice stamped 23:59:59 is written
    last and supplies bucket 0. *)
Lemma C8_last_write_wins_witness :
  exists scan,
    fst (Scan.to_laser_scan Sample.across_midnight "odom" 0) = Ok (Some scan) /\
    Scan.queued_slices Sample.across_midnight 0 =
      [Sample.slice 1000000 3199 3201 16 0 90 [Sample.point_0]] ++
      Sample.slice 86399000000 3199 3201 16 0 80 [Sample.point_0] :: [] /\
    exists st k,
      Scan.steps Sample.across_midnight = Some st /\
      Scan.bucket (len (LaserScan.ranges scan)) st
        (Sample.slice 86399000000 3199 3201 16 0 80 [Sample.point_0]) = Ok k /\
      ((forall x, In x [] ->
                  Scan.bucket (len (LaserScan.ranges scan)) st x <> Ok k) ->
       nth k (LaserScan.ranges scan) 0%float =
         Slice.max (Sample.slice 86399000000 3199 3201 16 0 80 [Sample.point_0]) /\
       nth k (LaserScan.intensities scan) 0 =
         Slice.max_intensity
           (Sample.slice 86399000000 3199 3201 16 0 80 [Sample.point_0])).
Proof.
  eexists. split; [vm_compute; reflexivity|].
  split; [vm_compute; reflexivity|].
  eapply proj1.
  apply (C8_last_write_wins Sample.across_midnight "odom" 0 _
           [Sample.slice 1000000 3199 3201 16 0 90 [Sample.point_0]]
           (Sample.slice 86399000000 3199 3201 16 0 80 [Sample.point_0]) []).
  - vm_compute; reflexivity.
  - vm_compute; reflexivity.
Defined.

(** C9, as the specification words it, fails for steps of 3 and the
    heading 6399: the slice is written to bucket 2133 of the
    [floor(6400 / 3) = 2133] buckets, one past the last, and the
    projection of [Sample.odd_steps] raises [IndexError]. *)
Lemma C9_counterexample :
  Scan.reachable Sample.odd_steps /\
  fst (Scan.to_laser_scan Sample.odd_steps "odom" 0) = Raise IndexError /\
  ~ Spec.write_in_bounds 3
      (Sample.slice 0 3199 3201 3 6399 80 [Sample.point_6399]).
Proof.
  split; [| split].
  - apply (Scan.reach_add (Scan.__init__ 0)
             (Sample.slice 0 3199 3201 3 6399 80 [Sample.point_6399]));
      [apply Scan.reach_init | vm_compute; reflexivity].
  - vm_compute; reflexivity.
  - intros H. destruct H as (k & Hk & _).
    + simpl. lia.
    + lia.
    + vm_compute in Hk. discriminate Hk.
Qed.

(** C9, amended: for [steps > 0] and a heading with
    [0 <= heading < steps * floor(6400 / steps)], the bucket index
    [floor(heading / steps)] is inside the [floor(6400 / steps)] buckets
    and both writes succeed.  (That bound is 6400 exactly when [steps]
    divides 6400.) *)
Theorem C9_write_in_bounds (st : Z) (sl : Slice.t) :
  0 <= Slice.heading sl ->
  Slice.heading sl < st * (6400 / st) ->
  0 < st ->
  0 <= Slice.heading sl / st < 6400 / st /\
  Scan.bucket (6400 / st) st sl = Ok (Z.to_nat (Slice.heading sl / st)) /\
  (exists ranges,
     setitem (Scan.zero_ranges (6400 / st)) (Slice.heading sl / st) (Slice.max sl)
       = Ok ranges) /\
  (exists intensities,
     setitem (Scan.zero_intensities (6400 / st)) (Slice.heading sl / st)
       (Slice.max_intensity sl) = Ok intensities) /\
  (6400 mod st = 0 -> st * (6400 / st) = 6400).
Proof.
  intros H0 Hlt Hst.
  assert (Hin : 0 <= Slice.heading sl / st < 6400 / st).
  { split; [apply Z.div_pos; lia|].
    apply Z.div_lt_upper_bound; lia. }
  assert (Hb : resolve (6400 / st) (Slice.heading sl / st)
               = Ok (Z.to_nat (Slice.heading sl / st)))
    by (apply resolve_in_range; exact Hin).
  split; [exact Hin | split; [exact Hb | split; [| split]]].
  - unfold setitem. rewrite len_zero_ranges, Z.max_r, Hb by lia.
    eexists; reflexivity.
  - unfold setitem. rewrite len_zero_intensities, Z.max_r, Hb by lia.
    eexists; reflexivity.
  - intros Hmod. pose proof (Z.div_mod 6400 st ltac:(lia)). lia.
Qed.

(** The last heading of a turn in steps of 16 goes to bucket 399 of 400. *)
Lemma C9_write_in_bounds_witness :
  0 <= 6399 / 16 < 6400 / 16 /\
  Scan.bucket (6400 / 16) 16
    (Sample.slice 0 3199 3201 16 6399 80 [Sample.point_6399]) = Ok 399%nat.
Proof.
  destruct (C9_write_in_bounds 16
              (Sample.slice 0 3199 3201 16 6399 80 [Sample.point_6399]))
    as (Hin & Hb & _).
  - simpl; lia.
  - vm_compute; reflexivity.
  - lia.
  - split; [exact Hin | exact Hb].
Defined.

(** * Further properties of the code *)

(** ** [Slice]: construction *)

Lemma range_length (a b : Z) : length (Py.range a b) = Z.to_nat (b - a).
Proof. unfold Py.range. rewrite length_map, length_seq. reflexivity. Qed.

Lemma range_nth (a b : Z) (k : nat) (d : Z) :
  (k < Z.to_nat (b - a))%nat -> nth k (Py.range a b) d = a + Z.of_nat k.
Proof.
  intros H. unfold Py.range.
  rewrite (nth_map_in _ _ _ _ 0%nat) by (rewrite length_seq; assumption).
  rewrite seq_nth by assumption. reflexivity.
Qed.

Lemma float_of_int_0 : is_zero (float_of_int 0) = true.
Proof. reflexivity. Qed.

Lemma to_points_ok cos sin (range : float) (heading num_bins : Z)
  (pts : list Point32) :
  Slice.to_points cos sin range heading num_bins = Ok pts ->
  num_bins <> 0 /\ length pts = Z.to_nat num_bins.
Proof.
  unfold Slice.to_points. intros H.
  apply bind_ok in H as (r_step & Hstep & H). injection H as <-.
  split.
  - intros ->. unfold fdiv in Hstep. rewrite float_of_int_0 in Hstep. discriminate.
  - rewrite length_map, range_length. f_equal. lia.
Qed.

(** X1: [to_points] gives one point per announced bin, none for a negative
    [num_bins]: the [k]-th lies [k] steps of [range / num_bins] along the
    heading, in the plane [z = 0]. *)
Theorem to_points_shape cos sin (range : float) (heading num_bins : Z)
  (pts : list Point32) :
  Slice.to_points cos sin range heading num_bins = Ok pts ->
  num_bins <> 0 /\
  length pts = Z.to_nat num_bins /\
  exists r_step,
    fdiv range (float_of_int num_bins) = Ok r_step /\
    forall k d,
      (k < length pts)%nat ->
      nth k pts d =
        {| x := (cos (sonar_angle_to_rad heading) * r_step
                 * float_of_int (Z.of_nat k + 1))%float;
           y := (sin (sonar_angle_to_rad heading) * r_step
                 * float_of_int (Z.of_nat k + 1))%float;
           z := 0%float |}.
Proof.
  unfold Slice.to_points. intros H.
  apply bind_ok in H as (r_step & Hstep & H). injection H as <-.
  split.
  - intros ->. unfold fdiv in Hstep. rewrite float_of_int_0 in Hstep. discriminate.
  - rewrite length_map, range_length.
    replace (num_bins + 1 - 1) with num_bins by lia.
    split; [reflexivity|].
    exists r_step. split; [assumption|].
    intros k d Hk.
    rewrite (nth_map_in _ _ _ _ 0) by (rewrite range_length; lia).
    rewrite range_nth by lia.
    replace (1 + Z.of_nat k) with (Z.of_nat k + 1) by lia. reflexivity.
Qed.

(** Five points for five bins. *)
Lemma to_points_shape_witness :
  exists pts,
    Slice.to_points (fun _ => 1%float) (fun _ => 0%float) 10 0 5 = Ok pts /\
    length pts = 5%nat /\
    nth 4 pts {| x := 0; y := 0; z := 0 |} = {| x := 10; y := 0; z := 0 |}.
Proof.
  eexists. split; [vm_compute; reflexivity|].
  destruct (to_points_shape (fun _ => 1%float) (fun _ => 0%float) 10 0 5 _ eq_refl)
    as (_ & Hlen & r_step & Hstep & Hnth).
  split; [exact Hlen|].
  vm_compute; reflexivity.
Defined.

Lemma to_points_raise cos sin (range : float) (heading num_bins : Z) (e : exn) :
  Slice.to_points cos sin range heading num_bins = Raise e -> e = ZeroDivisionError.
Proof.
  unfold Slice.to_points, fdiv.
  destruct (is_zero (float_of_int num_bins)); simpl; [|discriminate].
  intros H; injection H as <-. reflexivity.
Qed.

(** X2: a row that announces no bin, or whose range is zero, cannot be
    constructed: [__init__] raises [ZeroDivisionError], from line 99 or
    from line 71. *)
Theorem init_zero_division cos sin (row : Row.t) (md mi th : float) :
  Row.num_bins row = 0 \/ is_zero (Row.range row / 10) = true ->
  Slice.__init__ cos sin row md mi th = Raise ZeroDivisionError.
Proof.
  intros H. unfold Slice.__init__.
  destruct (Slice.to_points cos sin (Row.range row / 10) (Row.heading row)
              (Row.num_bins row)) as [pts|e] eqn:Hp; simpl.
  - destruct H as [H | H].
    + apply to_points_ok in Hp as (Hnz & _). contradiction.
    + unfold Slice.min_range, fdiv. rewrite H. reflexivity.
  - apply to_points_raise in Hp as ->. reflexivity.
Qed.

(** A row of range 0. *)
Lemma init_zero_division_witness :
  Slice.__init__ (fun _ => 1%float) (fun _ => 0%float)
    {| Row.sof := "SON"; Row.timestamp := 0; Row.node := 2; Row.status := 16;
       Row.hdctrl := 8967; Row.range := 0; Row.gain := 84; Row.slope := 125;
       Row.ad_low := 0; Row.ad_span := 255; Row.left_limit := 3199;
       Row.right_limit := 3201; Row.steps := 16; Row.heading := 0;
       Row.num_bins := 2; Row.data := [10; 20] |}
    1 50 0x1p-1
  = Raise ZeroDivisionError.
Proof.
  apply init_zero_division. right. reflexivity.
Defined.

(** [h & 0b100 > 0] reads bit 2 of [h], of either sign. *)
Lemma land_4_testbit (h : Z) : (0 <? Z.land h 4) = Z.testbit h 2.
Proof.
  destruct (Z.testbit h 2) eqn:Hbit.
  - apply Z.ltb_lt.
    assert (Hne : Z.land h 4 <> 0).
    { intros Hz. apply (f_equal (fun v => Z.testbit v 2)) in Hz.
      change 4 with (2 ^ 2) in Hz.
      rewrite Z.land_spec, Hbit, Z.pow2_bits_true, Z.bits_0 in Hz by lia.
      discriminate. }
    assert (Hnn : 0 <= Z.land h 4) by (apply Z.land_nonneg; right; lia).
    lia.
  - apply Z.ltb_ge.
    assert (Hz : Z.land h 4 = 0).
    { apply Z.bits_inj'. intros n Hn.
      change 4 with (2 ^ 2).
      rewrite Z.land_spec, Z.bits_0.
      destruct (Z.eq_dec n 2) as [-> | Hn2].
      - rewrite Hbit. reflexivity.
      - rewrite Z.pow2_bits_false by lia. apply andb_false_r. }
    lia.
Qed.

(** X3: a slice that has been constructed has a non-zero range, announces a
    number of bins that is not 0 (it may be negative, and need not be the
    number of bins in the row) and holds at least one bin; its fields
    are the row's, its range the row's in metres, and its direction bit 2
    of [hdctrl]. *)
Theorem init_fields cos sin (row : Row.t) (md mi th : float) (self : Slice.t) :
  Slice.__init__ cos sin row md mi th = Ok self ->
  is_zero (Slice.range self) = false /\
  Slice.num_bins self <> 0 /\
  Slice.data self <> [] /\
  Slice.range self = (Row.range row / 10)%float /\
  Slice.num_bins self = Row.num_bins row /\
  Slice.data self = Row.data row /\
  Slice.heading self = Row.heading row /\
  Slice.steps self = Row.steps row /\
  Slice.left_limit self = Row.left_limit row /\
  Slice.right_limit self = Row.right_limit row /\
  Slice.timestamp self = Row.timestamp row /\
  Slice.clockwise self = Z.testbit (Row.hdctrl row) 2.
Proof.
  intros H. pose proof H as H'.
  unfold Slice.__init__ in H'.
  apply bind_ok in H' as (pts & Hp & H').
  apply bind_ok in H' as (mr & Hmr & H').
  apply bind_ok in H' as (am & Ham & H').
  apply bind_ok in H' as (raw & Hraw & H').
  apply bind_ok in H' as (chosen & Hch & H').
  injection H' as <-. simpl.
  split; [| split; [| split]].
  - unfold Slice.min_range, fdiv in Hmr.
    destruct (is_zero (Row.range row / 10)); [discriminate | reflexivity].
  - apply to_points_ok in Hp as (Hnz & _). exact Hnz.
  - intros Hnil. rewrite Hnil in Ham. discriminate Ham.
  - repeat split. exact (land_4_testbit _).
Qed.

(** The row of the specification's examples. *)
Lemma init_fields_witness :
  exists self,
    Slice.__init__ (fun _ => 1%float) (fun _ => 0%float) Sample.strong_row 1 50 1000
      = Ok self /\
    Slice.range self = 10%float /\
    Slice.clockwise self = true.
Proof.
  eexists. split; [vm_compute; reflexivity|].
  destruct (init_fields (fun _ => 1%float) (fun _ => 0%float)
              Sample.strong_row 1 50 1000 _ eq_refl)
    as (_ & _ & _ & Hr & _ & _ & _ & _ & _ & _ & _ & Hc).
  split; [exact Hr | exact Hc].
Defined.

(** ** [Slice]: the chosen return *)

Lemma int_gt_float_mono (v w : Z) (x : float) :
  v <= w -> int_gt_float v x = true -> int_gt_float w x = true.
Proof.
  unfold int_gt_float. intros Hvw.
  destruct (Prim2SF x) as [s | s | | s m e]; auto.
  - rewrite !Z.ltb_lt. lia.
  - destruct (0 <=? e) eqn:E; rewrite !Z.ltb_lt; [lia|].
    apply Z.leb_gt in E.
    assert (0 < 2 ^ (- e)) by (apply Z.pow_pos_nonneg; lia).
    intros H1. eapply Z.lt_le_trans; [exact H1|].
    apply Z.mul_le_mono_nonneg_r; lia.
Qed.

(** X4: whatever the threshold, the chosen bin is a bin of the row, at or
    before the first maximum of the masked bins: the override can only
    bring the choice nearer.  The chosen intensity is that bin's value in
    the row. *)
Theorem init_chosen_bin cos sin (row : Row.t) (md mi th : float) (self : Slice.t) :
  Slice.__init__ cos sin row md mi th = Ok self ->
  exists mr i a,
    Slice.min_range md (Slice.range self) (Slice.num_bins self) = Ok mr /\
    first_max (Slice.masked (Slice.data self) mi mr) a /\
    0 <= i <= a /\
    a < len (Slice.data self) /\
    Slice.max self = Slice.range_of_bin i (Slice.range self) (Slice.num_bins self) /\
    Slice.max_intensity self = nth (Z.to_nat i) (Slice.data self) 0 /\
    In (Slice.max_intensity self) (Slice.data self).
Proof.
  intros Hinit.
  apply init_inv in Hinit as (_ & _ & _ & mr & a & Hmr & Ha & Hsel).
  pose proof (argmax_first_max _ _ Ha) as Hfm.
  assert (Hlen : 0 <= a < len (Slice.data self)).
  { destruct Hfm as (Hi & _). unfold len in *. rewrite masked_length in Hi. exact Hi. }
  destruct (Slice.first_over (Slice.masked (Slice.data self) mi mr) th) as [i|] eqn:Hover.
  - destruct Hsel as [Hmax Hraw].
    pose proof (first_over_nearest _ _ _ Hover) as (Hi & Hgt & Hbefore).
    assert (Hia : i <= a).
    { destruct (Z.le_gt_cases i a) as [|Hlt]; [assumption|].
      specialize (Hbefore (Z.to_nat a) ltac:(lia)).
      destruct Hfm as (_ & Hle & _).
      specialize (Hle (Z.to_nat i) ltac:(unfold len in Hi; lia)).
      rewrite (int_gt_float_mono _ _ th Hle Hgt) in Hbefore.
      discriminate. }
    assert (Hin : 0 <= i < len (Slice.data self)) by lia.
    rewrite getitem_in_range in Hraw by assumption. injection Hraw as Hraw.
    exists mr, i, a.
    split; [exact Hmr | split; [exact Hfm | split; [lia | split; [lia|]]]].
    split; [exact Hmax | split; [symmetry; exact Hraw|]].
    rewrite <- Hraw. apply nth_In. unfold len in Hin. lia.
  - destruct Hsel as [Hmax Hraw].
    rewrite getitem_in_range in Hraw by assumption. injection Hraw as Hraw.
    exists mr, a, a.
    split; [exact Hmr | split; [exact Hfm | split; [lia | split; [lia|]]]].
    split; [exact Hmax | split; [symmetry; exact Hraw|]].
    rewrite <- Hraw. apply nth_In. unfold len in Hlen. lia.
Qed.

(** With a threshold of 55 the row of the specification's examples is
    cut at bin 1, before the maximum at bin 3. *)
Lemma init_chosen_bin_witness :
  exists self,
    Slice.__init__ (fun _ => 1%float) (fun _ => 0%float) Sample.strong_row 1 50 55
      = Ok self /\
    exists mr i a,
      Slice.min_range 1 (Slice.range self) (Slice.num_bins self) = Ok mr /\
      first_max (Slice.masked (Slice.data self) 50 mr) a /\
      0 <= i <= a /\
      a < len (Slice.data self) /\
      Slice.max self = Slice.range_of_bin i (Slice.range self) (Slice.num_bins self) /\
      Slice.max_intensity self = nth (Z.to_nat i) (Slice.data self) 0 /\
      In (Slice.max_intensity self) (Slice.data self).
Proof.
  eexists. split; [vm_compute; reflexivity|].
  apply (init_chosen_bin (fun _ => 1%float) (fun _ => 0%float)
           Sample.strong_row 1 50 55).
  vm_compute; reflexivity.
Defined.

(** X5: for a threshold that is not negative: when some bin beyond the
    cut-off index is positive and over [min_intensity], the chosen
    intensity is over [min_intensity] too, and positive. *)
Theorem init_chosen_passes_filters cos sin (row : Row.t) (md mi th : float)
  (self : Slice.t) (mr : Z) (k : nat) :
  Slice.__init__ cos sin row md mi th = Ok self ->
  Slice.min_range md (Slice.range self) (Slice.num_bins self) = Ok mr ->
  int_gt_float 0 th = false ->
  (k < length (Slice.data self))%nat ->
  mr < Z.of_nat k ->
  0 < nth k (Slice.data self) 0 ->
  int_gt_float (nth k (Slice.data self) 0) mi = true ->
  int_gt_float (Slice.max_intensity self) mi = true /\
  0 < Slice.max_intensity self.
Proof.
  intros Hinit Hmr Hth Hk Hcut Hpos Hmi.
  apply init_inv in Hinit as (_ & _ & _ & mr' & a & Hmr' & Ha & Hsel).
  rewrite Hmr in Hmr'. injection Hmr' as <-.
  pose proof (argmax_first_max _ _ Ha) as (Hla & Hmaxa & _).
  assert (Hmk : nth k (Slice.masked (Slice.data self) mi mr) 0 = nth k (Slice.data self) 0).
  { rewrite masked_nth by assumption. rewrite Hmi.
    replace (mr <? Z.of_nat k) with true by (symmetry; apply Z.ltb_lt; assumption).
    reflexivity. }
  assert (Hsurvive : forall j : Z,
             0 <= j < len (Slice.data self) ->
             0 < nth (Z.to_nat j) (Slice.masked (Slice.data self) mi mr) 0 ->
             getitem 0 (Slice.data self) j = Ok (Slice.max_intensity self) ->
             int_gt_float (Slice.max_intensity self) mi = true /\
             0 < Slice.max_intensity self).
  { intros j Hj Hposj Hget.
    rewrite getitem_in_range in Hget by assumption. injection Hget as Hget.
    unfold len in Hj.
    rewrite masked_nth in Hposj by lia. rewrite Hget in Hposj.
    destruct (int_gt_float (Slice.max_intensity self) mi); simpl in Hposj; [|lia].
    destruct (mr <? Z.of_nat (Z.to_nat j)); [auto | lia]. }
  unfold len in Hla. rewrite masked_length in Hla.
  destruct (Slice.first_over (Slice.masked (Slice.data self) mi mr) th) as [i|] eqn:Hover.
  - destruct Hsel as [_ Hraw].
    pose proof (first_over_nearest _ _ _ Hover) as (Hi & Hgt & _).
    unfold len in Hi. rewrite masked_length in Hi.
    apply (Hsurvive i); [exact Hi | | exact Hraw].
    destruct (Z.lt_ge_cases 0 (nth (Z.to_nat i) (Slice.masked (Slice.data self) mi mr) 0))
      as [|Hle]; [assumption|].
    rewrite (int_gt_float_mono _ 0 th Hle Hgt) in Hth. discriminate.
  - destruct Hsel as [_ Hraw].
    apply (Hsurvive a); [exact Hla | | exact Hraw].
    specialize (Hmaxa k ltac:(rewrite masked_length; assumption)).
    rewrite Hmk in Hmaxa. lia.
Qed.

(** In the row of the specification's examples bin 1 holds 60. *)
Lemma init_chosen_passes_filters_witness :
  exists self,
    Slice.__init__ (fun _ => 1%float) (fun _ => 0%float) Sample.strong_row 1 50 55
      = Ok self /\
    int_gt_float (Slice.max_intensity self) 50 = true /\
    0 < Slice.max_intensity self.
Proof.
  eexists. split; [vm_compute; reflexivity|].
  apply (init_chosen_passes_filters (fun _ => 1%float) (fun _ => 0%float)
           Sample.strong_row 1 50 55 _ 0 1%nat).
  - vm_compute; reflexivity.
  - vm_compute; reflexivity.
  - vm_compute; reflexivity.
  - simpl; lia.
  - lia.
  - simpl; lia.
  - vm_compute; reflexivity.
Defined.

(** ** [Slice]: the point cloud of one slice *)

Lemma init_to_pointcloud cos sin (row : Row.t) (md mi th : float)
  (self : Slice.t) (frame : string) (now : Z) :
  Slice.__init__ cos sin row md mi th = Ok self ->
  Slice.to_pointcloud cos sin self frame now =
    Ok {| PointCloud.frame_id := frame;
          PointCloud.stamp := now;
          PointCloud.points := Slice.points self;
          PointCloud.channels :=
            [ {| name := "intensity"; values := Row.data row |} ] |}.
Proof.
  intros H. unfold Slice.__init__ in H.
  apply bind_ok in H as (pts & Hp & H).
  apply bind_ok in H as (mr & Hmr & H).
  apply bind_ok in H as (am & Ham & H).
  apply bind_ok in H as (raw & Hraw & H).
  apply bind_ok in H as (chosen & Hch & H).
  injection H as <-. unfold Slice.to_pointcloud. simpl.
  rewrite Hp. reflexivity.
Qed.

(** X6: the point cloud of a constructed slice never raises: it carries the
    points computed at construction, as many as [num_bins] announces, and
    one channel "intensity" with the row's bins, whose number need not be
    that of the points. *)
Theorem slice_to_pointcloud cos sin (row : Row.t) (md mi th : float)
  (self : Slice.t) (frame : string) (now : Z) :
  Slice.__init__ cos sin row md mi th = Ok self ->
  Slice.to_pointcloud cos sin self frame now =
    Ok {| PointCloud.frame_id := frame;
          PointCloud.stamp := now;
          PointCloud.points := Slice.points self;
          PointCloud.channels :=
            [ {| name := "intensity"; values := Row.data row |} ] |} /\
  length (Slice.points self) = Z.to_nat (Row.num_bins row).
Proof.
  intros H. unfold Slice.__init__ in H.
  apply bind_ok in H as (pts & Hp & H).
  apply bind_ok in H as (mr & Hmr & H).
  apply bind_ok in H as (am & Ham & H).
  apply bind_ok in H as (raw & Hraw & H).
  apply bind_ok in H as (chosen & Hch & H).
  injection H as <-. unfold Slice.to_pointcloud. simpl.
  rewrite Hp. simpl. split; [reflexivity|].
  apply to_points_ok in Hp as (_ & Hlen). exact Hlen.
Qed.

(** A row that announces 5 bins and holds 5. *)
Lemma slice_to_pointcloud_witness :
  exists self,
    Slice.__init__ (fun _ => 1%float) (fun _ => 0%float) Sample.strong_row 1 50 1000
      = Ok self /\
    Slice.to_pointcloud (fun _ => 1%float) (fun _ => 0%float) self "odom" 7 =
      Ok {| PointCloud.frame_id := "odom";
            PointCloud.stamp := 7;
            PointCloud.points := Slice.points self;
            PointCloud.channels :=
              [ {| name := "intensity"; values := [10; 60; 5; 80; 40] |} ] |} /\
    length (Slice.points self) = 5%nat.
Proof.
  eexists. split; [vm_compute; reflexivity|].
  apply (slice_to_pointcloud (fun _ => 1%float) (fun _ => 0%float)
           Sample.strong_row 1 50 1000 _ "odom" 7).
  vm_compute; reflexivity.
Defined.

(** ** [Scan.add] *)

Lemma add_newest (self self' : Scan.t) (sl : Slice.t) :
  Scan.add self sl = Ok self' ->
  exists kept, Scan.slices self' = kept ++ [sl].
Proof.
  intros Hadd.
  apply add_inv in Hadd
      as [(_ & Hs & _) | (_ & _ & _ & _ & [(_ & oldest & rest & _ & Hs) | (_ & Hs)])].
  - exists []. exact Hs.
  - exists rest. exact Hs.
  - exists (Scan.slices self). exact Hs.
Qed.

(** X7: [add] never reorders, duplicates or invents slices: the buffer
    afterwards is a suffix of the buffer before followed by the new
    slice, so it is never empty; [add] leaves [self.time] alone. *)
Theorem add_appends (self self' : Scan.t) (sl : Slice.t) :
  Scan.add self sl = Ok self' ->
  exists dropped kept,
    Scan.slices self = dropped ++ kept /\
    Scan.slices self' = kept ++ [sl] /\
    Scan.empty self' = false /\
    Scan.time self' = Scan.time self.
Proof.
  intros Hadd. pose proof Hadd as Hadd'.
  assert (Htime : Scan.time self' = Scan.time self).
  { unfold Scan.add in Hadd'.
    destruct (Scan.different_scan self sl); [injection Hadd' as <-; reflexivity|].
    apply bind_ok in Hadd' as ([|] & _ & Hadd').
    - destruct (Scan.slices self); [discriminate | injection Hadd' as <-; reflexivity].
    - injection Hadd' as <-; reflexivity. }
  assert (Hempty : forall kept, Scan.slices self' = kept ++ [sl] -> Scan.empty self' = false).
  { intros kept Hk. destruct (Scan.empty self') eqn:E; [|reflexivity].
    apply empty_nil in E. rewrite Hk in E. apply app_eq_nil in E as [_ E]. discriminate. }
  apply add_inv in Hadd
      as [(_ & Hs & _) | (_ & _ & _ & _ & [(_ & oldest & rest & Hs & Hs') | (_ & Hs')])].
  - exists (Scan.slices self), []. rewrite app_nil_r.
    split; [reflexivity | split; [exact Hs | split; [apply (Hempty []); exact Hs | exact Htime]]].
  - exists [oldest], rest.
    split; [exact Hs | split; [exact Hs' | split; [apply (Hempty rest); exact Hs' | exact Htime]]].
  - exists [], (Scan.slices self).
    split; [reflexivity | split; [exact Hs' | split; [apply (Hempty (Scan.slices self)); exact Hs' | exact Htime]]].
Qed.

(** The second slice of a scan. *)
Lemma add_appends_witness :
  exists self' dropped kept,
    Scan.add (Sample.scan 3199 3201 16 [Sample.slice 0 3199 3201 16 0 80 [Sample.point_0]])
             (Sample.slice 1000000 3199 3201 16 16 90 [Sample.point_16]) = Ok self' /\
    Scan.slices (Sample.scan 3199 3201 16
                   [Sample.slice 0 3199 3201 16 0 80 [Sample.point_0]])
      = dropped ++ kept /\
    Scan.slices self' = kept ++ [Sample.slice 1000000 3199 3201 16 16 90 [Sample.point_16]] /\
    Scan.empty self' = false /\
    Scan.time self' = 0.
Proof.
  eexists.
  assert (H : Scan.add
                (Sample.scan 3199 3201 16 [Sample.slice 0 3199 3201 16 0 80 [Sample.point_0]])
                (Sample.slice 1000000 3199 3201 16 16 90 [Sample.point_16])
              = Ok Sample.one_second_apart) by (vm_compute; reflexivity).
  destruct (add_appends _ _ _ H) as (dropped & kept & H1 & H2 & H3 & H4).
  exists dropped, kept. split; [exact H|]. auto.
Defined.

(** X8: on a scan reached from [Scan()], [add] of a slice whose [steps] is
    not 0 always returns. *)
Theorem add_total (self : Scan.t) (sl : Slice.t) :
  Scan.reachable self ->
  Slice.steps sl <> 0 ->
  exists self', Scan.add self sl = Ok self'.
Proof.
  intros Hreach Hnz. unfold Scan.add.
  destruct (Scan.different_scan self sl) eqn:Hd; [eexists; reflexivity|].
  apply different_scan_false in Hd as (Hst & Hl & Hr).
  destruct (reachable_shaped self Hreach _ Hst) as (Hne & _).
  unfold Scan.full. rewrite Hst, Hl, Hr.
  replace (Slice.steps sl =? 0) with false by (symmetry; apply Z.eqb_neq; assumption).
  simpl.
  destruct (len (Scan.slices self) =? _).
  - destruct (Scan.slices self); [contradiction | eexists; reflexivity].
  - eexists; reflexivity.
Qed.

(** A third slice for [Sample.one_second_apart]. *)
Lemma add_total_witness :
  exists self',
    Scan.add Sample.one_second_apart
      (Sample.slice 2000000 3199 3201 16 0 70 [Sample.point_0]) = Ok self'.
Proof.
  apply add_total; [| simpl; lia].
  apply (Scan.reach_add
           (Sample.scan 3199 3201 16 [Sample.slice 0 3199 3201 16 0 80 [Sample.point_0]])
           (Sample.slice 1000000 3199 3201 16 16 90 [Sample.point_16]));
    [| vm_compute; reflexivity].
  apply (Scan.reach_add (Scan.__init__ 0)
           (Sample.slice 0 3199 3201 16 0 80 [Sample.point_0]));
    [apply Scan.reach_init | vm_compute; reflexivity].
Defined.

(** X9: a slice whose [steps] is 0 is accepted when it resets the scan, and
    the next slice of the same shape makes [full] divide by zero: [add]
    raises [ZeroDivisionError]. *)
Theorem add_zero_steps (self : Scan.t) (sl : Slice.t) :
  Scan.different_scan self sl = false ->
  Slice.steps sl = 0 ->
  Scan.add self sl = Raise ZeroDivisionError.
Proof.
  intros Hd Hz. unfold Scan.add. rewrite Hd.
  apply different_scan_false in Hd as (Hst & Hl & Hr).
  unfold Scan.full. rewrite Hst, Hl, Hr, Hz. reflexivity.
Qed.

(** Two slices with [steps = 0]: the first resets the scan, the second
    raises. *)
Lemma add_zero_steps_witness :
  exists self',
    Scan.add (Scan.__init__ 0) (Sample.slice 0 3199 3201 0 0 80 [Sample.point_0])
      = Ok self' /\
    Scan.add self' (Sample.slice 1000000 3199 3201 0 0 90 [Sample.point_0])
      = Raise ZeroDivisionError.
Proof.
  eexists. split; [vm_compute; reflexivity|].
  apply add_zero_steps; vm_compute; reflexivity.
Defined.

(** X10: in every scan reached from [Scan()], every buffered slice has the
    scan's [steps], [num_bins], sweep bounds and direction. *)
Theorem reachable_compatible (self : Scan.t) (sl : Slice.t) :
  Scan.reachable self ->
  In sl (Scan.slices self) ->
  Scan.steps self = Some (Slice.steps sl) /\
  Scan.num_bins self = Some (Slice.num_bins sl) /\
  Scan.left_limit self = Some (Slice.left_limit sl) /\
  Scan.right_limit self = Some (Slice.right_limit sl) /\
  Scan.clockwise self = Some (Slice.clockwise sl).
Proof.
  intros Hreach. revert sl.
  induction Hreach as [now | self new self' Hreach IH Hadd | self frame queue Hreach IH];
    intros sl Hin.
  - destruct Hin.
  - unfold Scan.add in Hadd.
    destruct (Scan.different_scan self new) eqn:Hd.
    + injection Hadd as <-. simpl in *. destruct Hin as [<- | []]. auto.
    + assert (Hnew : Scan.steps self = Some (Slice.steps new) /\
                     Scan.num_bins self = Some (Slice.num_bins new) /\
                     Scan.left_limit self = Some (Slice.left_limit new) /\
                     Scan.right_limit self = Some (Slice.right_limit new) /\
                     Scan.clockwise self = Some (Slice.clockwise new)).
      { unfold Scan.different_scan in Hd.
        repeat (apply orb_false_iff in Hd as [Hd ?]).
        repeat split; try (apply ne_int_false; assumption).
        destruct (Scan.clockwise self) as [b|]; [|discriminate].
        simpl in *. f_equal. symmetry. apply Bool.eqb_prop.
        apply negb_false_iff. assumption. }
      apply bind_ok in Hadd as ([|] & _ & Hadd).
      * destruct (Scan.slices self) as [|oldest rest] eqn:Hs; [discriminate|].
        injection Hadd as <-. simpl in *.
        apply in_app_or in Hin as [Hin | [<- | []]]; [| exact Hnew].
        apply IH. right. exact Hin.
      * injection Hadd as <-. simpl in *.
        apply in_app_or in Hin as [Hin | [<- | []]]; [| exact Hnew].
        apply IH. exact Hin.
  - destruct (to_laser_scan_state self frame queue) as (now & Hnow).
    rewrite Hnow in *. simpl in *. apply IH. exact Hin.
Qed.

(** The two slices of [Sample.one_second_apart]. *)
Lemma reachable_compatible_witness :
  Scan.steps Sample.one_second_apart = Some 16 /\
  Scan.num_bins Sample.one_second_apart = Some 1 /\
  Scan.left_limit Sample.one_second_apart = Some 3199 /\
  Scan.right_limit Sample.one_second_apart = Some 3201 /\
  Scan.clockwise Sample.one_second_apart = Some true.
Proof.
  apply (reachable_compatible Sample.one_second_apart
           (Sample.slice 1000000 3199 3201 16 16 90 [Sample.point_16])).
  - apply (Scan.reach_add
             (Sample.scan 3199 3201 16 [Sample.slice 0 3199 3201 16 0 80 [Sample.point_0]])
             (Sample.slice 1000000 3199 3201 16 16 90 [Sample.point_16]));
      [| vm_compute; reflexivity].
    apply (Scan.reach_add (Scan.__init__ 0)
             (Sample.slice 0 3199 3201 16 0 80 [Sample.point_0]));
      [apply Scan.reach_init | vm_compute; reflexivity].
  - right. left. reflexivity.
Defined.

Lemma add_same_shape (self : Scan.t) (c : Z) (x : Slice.t) :
  Scan.capacity self = Some c ->
  Scan.slices self <> [] ->
  Scan.different_scan self x = false ->
  exists self',
    Scan.add self x = Ok self' /\
    Scan.capacity self' = Some c /\
    (forall y, Scan.different_scan self' y = Scan.different_scan self y) /\
    Scan.slices self' =
      if len (Scan.slices self) =? c then tl (Scan.slices self) ++ [x]
      else Scan.slices self ++ [x].
Proof.
  intros Hcap Hne Hd. unfold Scan.add. rewrite Hd, (capacity_full _ _ Hcap). simpl.
  destruct (len (Scan.slices self) =? c).
  - destruct (Scan.slices self) as [|oldest rest]; [contradiction|].
    eexists. split; [reflexivity|]. simpl. auto.
  - eexists. split; [reflexivity|]. simpl. auto.
Qed.

Lemma add_all_window (l : list Slice.t) :
  forall (self : Scan.t) (c : Z),
    Scan.capacity self = Some c ->
    1 <= c ->
    Scan.slices self <> [] ->
    len (Scan.slices self) <= c ->
    (forall x, In x l -> Scan.different_scan self x = false) ->
    exists self',
      fold_left (fun r x => s <- r ;; Scan.add s x) l (Ok self) = Ok self' /\
      Scan.capacity self' = Some c /\
      Scan.slices self' =
        skipn (length (Scan.slices self ++ l) - Z.to_nat c) (Scan.slices self ++ l).
Proof.
  induction l as [|x l IH]; intros self c Hcap Hc Hne Hlen Hsame.
  - exists self. split; [reflexivity | split; [assumption|]].
    rewrite app_nil_r.
    replace (length (Scan.slices self) - Z.to_nat c)%nat with 0%nat
      by (unfold len in Hlen; lia).
    reflexivity.
  - destruct (add_same_shape self c x Hcap Hne (Hsame x (or_introl eq_refl)))
      as (self1 & Hadd & Hcap1 & Hshape & Hs1).
    simpl. rewrite Hadd.
    destruct (IH self1 c) as (self' & Hfold & Hcap' & Hs'); try assumption.
    + rewrite Hs1. destruct (len (Scan.slices self) =? c);
        intros Hnil; apply app_eq_nil in Hnil as [_ Hnil]; discriminate.
    + rewrite Hs1. unfold len in *.
      destruct (Z.of_nat (length (Scan.slices self)) =? c) eqn:E;
        [apply Z.eqb_eq in E | apply Z.eqb_neq in E]; rewrite length_app; simpl.
      * destruct (Scan.slices self); [contradiction | simpl in *; lia].
      * lia.
    + intros y Hy. rewrite Hshape. apply Hsame. right. exact Hy.
    + exists self'. split; [exact Hfold | split; [exact Hcap'|]].
      rewrite Hs', Hs1. unfold len in *.
      destruct (Z.of_nat (length (Scan.slices self)) =? c) eqn:E;
        [apply Z.eqb_eq in E | apply Z.eqb_neq in E].
      * destruct (Scan.slices self) as [|oldest rest]; [contradiction|].
        simpl tl. rewrite <- app_assoc. simpl app.
        simpl length in *.
        replace (S (length (rest ++ x :: l)) - Z.to_nat c)%nat
          with (S (length (rest ++ x :: l) - Z.to_nat c))
          by (rewrite !length_app; cbn [length]; lia).
        reflexivity.
      * rewrite <- app_assoc. reflexivity.
Qed.

(** X11: after a reset by [first], as long as slices of the same shape keep
    coming and [floor(max_range / steps)] is [c >= 1], every [add]
    returns and the buffer is the last [c] slices received since the
    reset, in order of arrival: it holds [min(c, received)] slices, and
    [full] answers [True] from the [c]-th slice on. *)
Theorem add_sliding_window (self self0 : Scan.t) (first : Slice.t)
  (l : list Slice.t) (c : Z) :
  Scan.different_scan self first = true ->
  Scan.add self first = Ok self0 ->
  Scan.capacity self0 = Some c ->
  1 <= c ->
  (forall x, In x l -> Scan.different_scan self0 x = false) ->
  exists self',
    fold_left (fun r x => s <- r ;; Scan.add s x) l (Ok self0) = Ok self' /\
    Scan.slices self' = skipn (length (first :: l) - Z.to_nat c) (first :: l) /\
    len (Scan.slices self') = Z.min c (len (first :: l)) /\
    Scan.full self' = Ok (c <=? len (first :: l)).
Proof.
  intros Hd Hadd Hcap Hc Hsame.
  assert (Hs0 : Scan.slices self0 = [first]).
  { unfold Scan.add in Hadd. rewrite Hd in Hadd. injection Hadd as <-. reflexivity. }
  destruct (add_all_window l self0 c Hcap Hc) as (self' & Hfold & Hcap' & Hs').
  - rewrite Hs0. discriminate.
  - rewrite Hs0. unfold len; simpl; lia.
  - exact Hsame.
  - exists self'. rewrite Hs0 in Hs'. simpl app in Hs'.
    assert (Hlen : len (Scan.slices self') = Z.min c (len (first :: l)))
      by (rewrite Hs'; unfold len; rewrite length_skipn; lia).
    split; [exact Hfold | split; [exact Hs' | split; [exact Hlen|]]].
    rewrite (capacity_full _ _ Hcap'), Hlen. f_equal.
    destruct (c <=? len (first :: l)) eqn:E;
      [apply Z.leb_le in E; apply Z.eqb_eq | apply Z.leb_gt in E; apply Z.eqb_neq]; lia.
Qed.

(** A continuous scan in steps of 3200 keeps the last two of three
    slices. *)
Lemma add_sliding_window_witness :
  exists self',
    fold_left (fun r x => s <- r ;; Scan.add s x)
      [Sample.slice 1000000 3199 3201 3200 0 90 [Sample.point_0];
       Sample.slice 2000000 3199 3201 3200 0 70 [Sample.point_0]]
      (Ok (Sample.scan 3199 3201 3200
             [Sample.slice 0 3199 3201 3200 0 80 [Sample.point_0]])) = Ok self' /\
    Scan.slices self' =
      [Sample.slice 1000000 3199 3201 3200 0 90 [Sample.point_0];
       Sample.slice 2000000 3199 3201 3200 0 70 [Sample.point_0]] /\
    len (Scan.slices self') = 2 /\
    Scan.full self' = Ok true.
Proof.
  apply (add_sliding_window (Scan.__init__ 0)
           (Sample.scan 3199 3201 3200
              [Sample.slice 0 3199 3201 3200 0 80 [Sample.point_0]])
           (Sample.slice 0 3199 3201 3200 0 80 [Sample.point_0])
           [Sample.slice 1000000 3199 3201 3200 0 90 [Sample.point_0];
            Sample.slice 2000000 3199 3201 3200 0 70 [Sample.point_0]] 2).
  - vm_compute; reflexivity.
  - vm_compute; reflexivity.
  - vm_compute; reflexivity.
  - lia.
  - intros x [<- | [<- | []]]; vm_compute; reflexivity.
Defined.

(** ** [Scan.to_laser_scan]: the selected slices *)

Lemma strongly_sorted_app {A : Type} (R : A -> A -> Prop) (l1 l2 : list A) :
  StronglySorted R (l1 ++ l2) ->
  StronglySorted R l2 /\ forall x y, In x l1 -> In y l2 -> R x y.
Proof.
  induction l1 as [|a l1 IH]; simpl; intros H.
  - split; [assumption | intros x y []].
  - inversion H as [|? ? Hs Ha]; subst.
    destruct (IH Hs) as [H2 Hcross]. split; [assumption|].
    intros x y [<- | Hx] Hy; [| apply Hcross; assumption].
    rewrite Forall_forall in Ha. apply Ha, in_or_app. right. assumption.
Qed.

(** X12: for [0 < queue <= len(self.slices)] the projection selects exactly
    [queue] slices, in ascending order of time stamp, and no slice left
    out is stamped later than a selected one. *)
Theorem queued_most_recent (self : Scan.t) (queue : Z) :
  0 < queue <= len (Scan.slices self) ->
  len (Scan.queued_slices self queue) = queue /\
  StronglySorted (fun a b => Slice.timestamp a <= Slice.timestamp b)
    (Scan.queued_slices self queue) /\
  exists earlier,
    Permutation (Scan.slices self) (earlier ++ Scan.queued_slices self queue) /\
    forall x y,
      In x earlier -> In y (Scan.queued_slices self queue) ->
      Slice.timestamp x <= Slice.timestamp y.
Proof.
  intros Hq. split.
  - rewrite queued_slices_length by lia.
    replace (queue =? 0) with false by (symmetry; apply Z.eqb_neq; lia). reflexivity.
  - destruct (slice_from_suffix (-1 * queue) (sorted Slice.timestamp (Scan.slices self)))
      as (earlier & Hsplit).
    fold (Scan.queued_slices self queue) in Hsplit.
    pose proof (sorted_sorted Slice.timestamp (Scan.slices self)) as Hsorted.
    rewrite Hsplit in Hsorted.
    apply strongly_sorted_app in Hsorted as [Hq2 Hcross].
    split; [exact Hq2|].
    exists earlier. split; [| exact Hcross].
    rewrite <- Hsplit. apply sorted_perm.
Qed.

(** The later of the two slices of [Sample.across_midnight] is the one
    stamped 23:59:59. *)
Lemma queued_most_recent_witness :
  len (Scan.queued_slices Sample.across_midnight 1) = 1 /\
  Scan.queued_slices Sample.across_midnight 1 =
    [Sample.slice 86399000000 3199 3201 16 0 80 [Sample.point_0]].
Proof.
  split; [| vm_compute; reflexivity].
  apply (queued_most_recent Sample.across_midnight 1).
  vm_compute. split; [reflexivity | intros H; discriminate H].
Defined.

(** X13: a negative [queue] is not caught by the guard of line 200: when the
    buffer holds at most [-queue] slices (and one at least) no slice is
    selected and the projection raises [IndexError], before any
    assignment to [self.time]. *)
Theorem negative_queue_raises (self : Scan.t) (frame : string) (queue : Z) :
  queue < 0 ->
  Scan.slices self <> [] ->
  len (Scan.slices self) <= - queue ->
  Scan.to_laser_scan self frame queue = (Raise IndexError, self).
Proof.
  intros Hq Hne Hlen. unfold Scan.to_laser_scan.
  destruct ((len (Scan.slices self) <? queue) || Scan.empty self) eqn:G.
  - apply guard_spec in G as [G | G]; [contradiction | unfold len in *; lia].
  - assert (Hnone : Scan.queued_slices self queue = []).
    { unfold Scan.queued_slices, slice_from.
      replace (-1 * queue <? 0) with false by (symmetry; apply Z.ltb_ge; lia).
      apply skipn_all2. unfold len in *. rewrite sorted_length in *. lia. }
    rewrite Hnone. reflexivity.
Qed.

(** A queue of -2 on two slices. *)
Lemma negative_queue_raises_witness :
  Scan.to_laser_scan Sample.one_second_apart "odom" (-2) =
    (Raise IndexError, Sample.one_second_apart).
Proof.
  apply negative_queue_raises.
  - lia.
  - discriminate.
  - vm_compute. intros H; discriminate H.
Defined.

(** ** [Scan.to_laser_scan]: the buckets *)

Lemma last_such {A : Type} (P : A -> Prop) (l : list A) :
  (forall x, P x \/ ~ P x) ->
  (forall x, In x l -> ~ P x) \/
  exists before x after,
    l = before ++ x :: after /\ P x /\ forall y, In y after -> ~ P y.
Proof.
  intros Hdec. induction l as [|a l IH].
  - left. intros x [].
  - destruct IH as [Hnone | (before & x & after & -> & Hx & Hafter)].
    + destruct (Hdec a) as [Ha | Ha].
      * right. exists [], a, l. auto.
      * left. intros x [<- | Hx]; auto.
    + right. exists (a :: before), x, after. auto.
Qed.

Lemma bucket_dec (n st : Z) (p : nat) (x : Slice.t) :
  Scan.bucket n st x = Ok p \/ Scan.bucket n st x <> Ok p.
Proof.
  destruct (Scan.bucket n st x) as [k|e]; [| right; discriminate].
  destruct (Nat.eq_dec k p) as [-> | Hne]; [left; reflexivity | right; congruence].
Qed.

(** X14: every bucket of a returned message holds either 0 and 0, when no
    selected slice is written to it, or the chosen range and intensity
    of the last selected slice written to it. *)
Theorem projection_buckets (self : Scan.t) (frame : string) (queue : Z)
  (scan : LaserScan.t) (p : nat) :
  fst (Scan.to_laser_scan self frame queue) = Ok (Some scan) ->
  exists st,
    Scan.steps self = Some st /\
    (((forall x, In x (Scan.queued_slices self queue) ->
                 Scan.bucket (len (LaserScan.ranges scan)) st x <> Ok p) /\
      nth p (LaserScan.ranges scan) 0%float = 0%float /\
      nth p (LaserScan.intensities scan) 0 = 0)
     \/
     (exists before sl after,
        Scan.queued_slices self queue = before ++ sl :: after /\
        Scan.bucket (len (LaserScan.ranges scan)) st sl = Ok p /\
        (forall x, In x after ->
                   Scan.bucket (len (LaserScan.ranges scan)) st x <> Ok p) /\
        nth p (LaserScan.ranges scan) 0%float = Slice.max sl /\
        nth p (LaserScan.intensities scan) 0 = Slice.max_intensity sl)).
Proof.
  intros Hres.
  apply to_laser_scan_some in Hres as (st & Hst & Hnz & Hw).
  exists st. split; [exact Hst|].
  destruct (write_slices_untouched st (Z.max 0 (6400 / st)) _ _ _ _ _ p
              (len_zero_ranges _) (len_zero_intensities _) Hw) as (Hr & _ & Hnth).
  rewrite Hr.
  destruct (last_such (fun x => Scan.bucket (Z.max 0 (6400 / st)) st x = Ok p)
              (Scan.queued_slices self queue) (bucket_dec _ _ _))
    as [Hnone | (before & sl & after & Hsplit & Hsl & Hafter)].
  - left. split; [exact Hnone|].
    destruct (Hnth Hnone) as [-> ->].
    split; [apply nth_zero_ranges | apply nth_zero_intensities].
  - right. exists before, sl, after.
    split; [exact Hsplit | split; [exact Hsl | split; [exact Hafter|]]].
    rewrite Hsplit in Hw.
    apply (write_slices_last st (Z.max 0 (6400 / st))) in Hw as (k & Hk & Hlast);
      [| apply len_zero_ranges | apply len_zero_intensities].
    assert (k = p) by congruence. subst k.
    apply Hlast. exact Hafter.
Qed.

(** Bucket 1 of the full projection of [Sample.one_second_apart]. *)
Lemma projection_buckets_witness :
  exists scan,
    fst (Scan.to_laser_scan Sample.one_second_apart "odom" 0) = Ok (Some scan) /\
    nth 1 (LaserScan.intensities scan) 0 = 90 /\
    exists st,
      Scan.steps Sample.one_second_apart = Some st /\
      (((forall x, In x (Scan.queued_slices Sample.one_second_apart 0) ->
                   Scan.bucket (len (LaserScan.ranges scan)) st x <> Ok 1%nat) /\
        nth 1 (LaserScan.ranges scan) 0%float = 0%float /\
        nth 1 (LaserScan.intensities scan) 0 = 0)
       \/
       (exists before sl after,
          Scan.queued_slices Sample.one_second_apart 0 = before ++ sl :: after /\
          Scan.bucket (len (LaserScan.ranges scan)) st sl = Ok 1%nat /\
          (forall x, In x after ->
                     Scan.bucket (len (LaserScan.ranges scan)) st x <> Ok 1%nat) /\
          nth 1 (LaserScan.ranges scan) 0%float = Slice.max sl /\
          nth 1 (LaserScan.intensities scan) 0 = Slice.max_intensity sl)).
Proof.
  eexists. split; [vm_compute; reflexivity|].
  split; [vm_compute; reflexivity|].
  apply (projection_buckets Sample.one_second_apart "odom" 0 _ 1%nat).
  vm_compute; reflexivity.
Defined.

(** X15: a projection that returns a message can be repeated: with no [add]
    in between, the second call returns the same buckets, and
    [self.time], hence the stamp, has advanced by the time increment
    once more. *)
Theorem projection_repeatable (self : Scan.t) (frame : string) (queue : Z)
  (scan : LaserScan.t) :
  fst (Scan.to_laser_scan self frame queue) = Ok (Some scan) ->
  exists d scan2,
    Scan.duration_from_sec (LaserScan.time_increment scan) = Ok d /\
    LaserScan.stamp scan = Scan.time self + d /\
    Scan.to_laser_scan (snd (Scan.to_laser_scan self frame queue)) frame queue =
      (Ok (Some scan2), Scan.set_time self (Scan.time self + d + d)) /\
    LaserScan.ranges scan2 = LaserScan.ranges scan /\
    LaserScan.intensities scan2 = LaserScan.intensities scan /\
    LaserScan.stamp scan2 = Scan.time self + d + d.
Proof.
  unfold Scan.to_laser_scan.
  destruct ((len (Scan.slices self) <? queue) || Scan.empty self) eqn:G; [discriminate|].
  destruct (Scan.scan_time (Scan.queued_slices self queue)) as [stime|e] eqn:Hs;
    [|discriminate].
  destruct (Scan.duration_from_sec
              (Scan.time_increment (Scan.queued_slices self queue) stime))
    as [d|e] eqn:Hd; [|discriminate].
  unfold Scan.build_scan. cbn [Scan.steps Scan.set_time Scan.time Scan.range].
  destruct (Scan.steps self) as [st|] eqn:Hst; [|discriminate].
  destruct (st =? 0) eqn:Hz; [discriminate|].
  destruct (Scan.write_slices st (Scan.queued_slices self queue)
              (Scan.zero_ranges (6400 / st)) (Scan.zero_intensities (6400 / st)))
    as [filled|e] eqn:Hw; [|discriminate].
  cbn [bind fst snd]. intros H. injection H as <-.
  cbn [LaserScan.time_increment LaserScan.stamp LaserScan.ranges LaserScan.intensities].
  exists d. eexists.
  split; [exact Hd | split; [reflexivity|]].
  change (Scan.slices (Scan.set_time self (Scan.time self + d))) with (Scan.slices self).
  change (Scan.empty (Scan.set_time self (Scan.time self + d))) with (Scan.empty self).
  change (Scan.queued_slices (Scan.set_time self (Scan.time self + d)) queue)
    with (Scan.queued_slices self queue).
  rewrite G, Hs, Hd.
  cbn [Scan.steps Scan.set_time Scan.time Scan.range]. rewrite Hst, Hz, Hw.
  cbn [bind]. split; [reflexivity|]. repeat split.
Qed.

(** The two projections of one turn of the driving loop, on
    [Sample.one_second_apart]: the second is stamped one second after
    the first. *)
Lemma projection_repeatable_witness :
  exists scan d scan2,
    fst (Scan.to_laser_scan Sample.one_second_apart "odom" 0) = Ok (Some scan) /\
    Scan.duration_from_sec (LaserScan.time_increment scan) = Ok d /\
    LaserScan.stamp scan = 1000000000 /\
    Scan.to_laser_scan (snd (Scan.to_laser_scan Sample.one_second_apart "odom" 0))
      "odom" 0 =
      (Ok (Some scan2), Scan.set_time Sample.one_second_apart (0 + d + d)) /\
    LaserScan.ranges scan2 = LaserScan.ranges scan /\
    LaserScan.intensities scan2 = LaserScan.intensities scan /\
    LaserScan.stamp scan2 = 2000000000.
Proof.
  assert (H : exists scan,
             fst (Scan.to_laser_scan Sample.one_second_apart "odom" 0) = Ok (Some scan) /\
             LaserScan.time_increment scan = 1%float).
  { eexists. split; [vm_compute; reflexivity | reflexivity]. }
  destruct H as (scan & Hscan & Hinc).
  destruct (projection_repeatable Sample.one_second_apart "odom" 0 scan Hscan)
    as (d & scan2 & Hd & Hst & Hsecond & Hr & Hi & Hst2).
  assert (d = 1000000000).
  { rewrite Hinc in Hd. vm_compute in Hd. injection Hd as <-. reflexivity. }
  subst d.
  exists scan, 1000000000, scan2.
  split; [exact Hscan | split; [exact Hd | split; [exact Hst|]]].
  split; [exact Hsecond | split; [exact Hr | split; [exact Hi | exact Hst2]]].
Defined.

(** ** [Scan.to_pointcloud] *)

Lemma length_flat_map_sum {A B : Type} (f : A -> list B) (l : list A) :
  length (flat_map f l) = list_sum (map (fun a => length (f a)) l).
Proof.
  induction l as [|a l IH]; simpl; [reflexivity|].
  rewrite length_app, IH. reflexivity.
Qed.

(** X16: the point cloud of a scan has one channel, "intensity"; its points
    are those of the buffered slices and its values their bins, both in
    buffer order, so a slice just added comes last.  Points and values
    are equally many when every buffered slice holds as many bins as it
    has points. *)
Theorem scan_to_pointcloud_after_add (self self' : Scan.t) (sl : Slice.t)
  (frame : string) (now : Z) :
  Scan.add self sl = Ok self' ->
  exists kept,
    Scan.slices self' = kept ++ [sl] /\
    PointCloud.points (fst (Scan.to_pointcloud self' frame now)) =
      flat_map Slice.points kept ++ Slice.points sl /\
    PointCloud.channels (fst (Scan.to_pointcloud self' frame now)) =
      [ {| name := "intensity";
           values := flat_map Slice.data kept ++ Slice.data sl |} ] /\
    ((forall x, In x (Scan.slices self') ->
                length (Slice.points x) = length (Slice.data x)) ->
     length (PointCloud.points (fst (Scan.to_pointcloud self' frame now))) =
     length (flat_map Slice.data kept ++ Slice.data sl)).
Proof.
  intros Hadd.
  destruct (add_newest _ _ _ Hadd) as (kept & Hs).
  exists kept. split; [exact Hs|].
  unfold Scan.to_pointcloud. simpl. rewrite Hs.
  rewrite !flat_map_app. simpl. rewrite !app_nil_r.
  split; [reflexivity | split; [reflexivity|]].
  intros Hall.
  rewrite <- (app_nil_r (Slice.points sl)), <- (app_nil_r (Slice.data sl)).
  change (Slice.points sl ++ []) with (flat_map Slice.points [sl]).
  change (Slice.data sl ++ []) with (flat_map Slice.data [sl]).
  rewrite <- !flat_map_app, !length_flat_map_sum.
  f_equal. apply map_ext_in. exact Hall.
Qed.

(** The cloud of [Sample.one_second_apart], built by adding its second
    slice: two points, two values. *)
Lemma scan_to_pointcloud_after_add_witness :
  exists self',
    Scan.add (Sample.scan 3199 3201 16 [Sample.slice 0 3199 3201 16 0 80 [Sample.point_0]])
             (Sample.slice 1000000 3199 3201 16 16 90 [Sample.point_16]) = Ok self' /\
    PointCloud.points (fst (Scan.to_pointcloud self' "odom" 5)) =
      [Sample.point_0; Sample.point_16] /\
    PointCloud.channels (fst (Scan.to_pointcloud self' "odom" 5)) =
      [ {| name := "intensity"; values := [80; 90] |} ].
Proof.
  eexists.
  assert (H : Scan.add
                (Sample.scan 3199 3201 16 [Sample.slice 0 3199 3201 16 0 80 [Sample.point_0]])
                (Sample.slice 1000000 3199 3201 16 16 90 [Sample.point_16])
              = Ok Sample.one_second_apart) by (vm_compute; reflexivity).
  split; [exact H|].
  destruct (scan_to_pointcloud_after_add _ _ _ "odom" 5 H) as (kept & Hs & Hp & Hc & _).
  assert (kept = [Sample.slice 0 3199 3201 16 0 80 [Sample.point_0]]).
  { change (Scan.slices Sample.one_second_apart)
      with ([Sample.slice 0 3199 3201 16 0 80 [Sample.point_0]] ++
            [Sample.slice 1000000 3199 3201 16 16 90 [Sample.point_16]]) in Hs.
    apply app_inj_tail in Hs as [Hs _]. symmetry. exact Hs. }
  subst kept. split; [exact Hp | exact Hc].
Defined.

(** ** The driving loop *)

Lemma turn_inv cos sin (queue : Z) (frame : string) (md mi th : float)
  (scan : Scan.t) (row : Row.t) (now : Z) (out : list Main.message) (scan' : Scan.t) :
  Main.turn cos sin queue frame md mi th scan row now = (out, Ok scan') ->
  exists sl kept full sector cloud,
    Slice.__init__ cos sin row md mi th = Ok sl /\
    Scan.slices scan' = kept ++ [sl] /\
    out = Main.Full full :: Main.publish Main.Sector sector ++ [Main.Points cloud] /\
    (sector = None <-> len (Scan.slices scan') < queue) /\
    cloud = {| PointCloud.frame_id := frame;
               PointCloud.stamp := now;
               PointCloud.points := Slice.points sl;
               PointCloud.channels :=
                 [ {| name := "intensity"; values := Row.data row |} ] |} /\
    (Scan.reachable scan -> Scan.reachable scan').
Proof.
  unfold Main.turn. intros H.
  destruct (Slice.__init__ cos sin row md mi th) as [sl|e] eqn:Hinit; [|discriminate].
  destruct (Scan.add scan sl) as [scan1|e] eqn:Hadd; [|discriminate].
  destruct (Scan.to_laser_scan scan1 frame 0) as [[full|e] scan2] eqn:H1; [|discriminate].
  destruct (Scan.to_laser_scan scan2 frame queue) as [[sector|e] scan3] eqn:H2;
    [|discriminate].
  destruct (Slice.to_pointcloud cos sin sl frame now) as [cloud|e] eqn:Hcloud;
    [|discriminate].
  injection H as <- <-.
  destruct (add_newest _ _ _ Hadd) as (kept & Hs1).
  assert (Hs2 : Scan.slices scan2 = Scan.slices scan1).
  { destruct (to_laser_scan_state scan1 frame 0) as (t & Ht).
    rewrite H1 in Ht. simpl in Ht. subst scan2. reflexivity. }
  assert (Hs3 : Scan.slices scan3 = Scan.slices scan2).
  { destruct (to_laser_scan_state scan2 frame queue) as (t & Ht).
    rewrite H2 in Ht. simpl in Ht. subst scan3. reflexivity. }
  assert (Hne : Scan.slices scan3 <> []).
  { rewrite Hs3, Hs2, Hs1. intros Hnil. apply app_eq_nil in Hnil as [_ Hnil]. discriminate. }
  destruct full as [full|].
  2:{ pose proof (to_laser_scan_none scan1 frame 0) as Hnone.
      rewrite H1 in Hnone. simpl in Hnone.
      destruct (proj1 Hnone eq_refl) as [Hnil | Hlt].
      - rewrite <- Hs2, <- Hs3 in Hnil. contradiction.
      - unfold len in Hlt. lia. }
  exists sl, kept, full, sector, cloud.
  split; [reflexivity | split; [rewrite Hs3, Hs2; exact Hs1 | split; [reflexivity|]]].
  split; [| split].
  - pose proof (to_laser_scan_none scan2 frame queue) as Hnone.
    rewrite H2 in Hnone. simpl in Hnone. rewrite Hs3.
    split.
    + intros ->. destruct (proj1 Hnone eq_refl) as [Hnil | Hlt]; [| exact Hlt].
      rewrite <- Hs3 in Hnil. contradiction.
    + intros Hlt. destruct sector as [s|]; [| reflexivity].
      assert (Hcontra : @Ok (option LaserScan.t) (Some s) = Ok None)
        by (apply Hnone; right; exact Hlt).
      discriminate Hcontra.
  - rewrite (init_to_pointcloud cos sin row md mi th sl frame now Hinit) in Hcloud.
    injection Hcloud as <-. reflexivity.
  - intros Hreach.
    replace scan3 with (snd (Scan.to_laser_scan scan2 frame queue)) by (rewrite H2; reflexivity).
    apply Scan.reach_laser_scan.
    replace scan2 with (snd (Scan.to_laser_scan scan1 frame 0)) by (rewrite H1; reflexivity).
    apply Scan.reach_laser_scan.
    apply (Scan.reach_add scan sl); assumption.
Qed.

(** X17: a turn of the loop that ends without an exception has published, in
    this order: the full scan, always; the sector scan, exactly when the
    buffer holds at least [queue] slices; and the point cloud of the row,
    stamped [now], with the row's bins as intensities.  The row's slice
    is then the newest of the buffer. *)
Theorem turn_publishes cos sin (queue : Z) (frame : string) (md mi th : float)
  (scan : Scan.t) (row : Row.t) (now : Z) (out : list Main.message) (scan' : Scan.t) :
  Main.turn cos sin queue frame md mi th scan row now = (out, Ok scan') ->
  exists sl kept full sector,
    Slice.__init__ cos sin row md mi th = Ok sl /\
    Scan.slices scan' = kept ++ [sl] /\
    out = Main.Full full :: Main.publish Main.Sector sector ++
          [Main.Points
             {| PointCloud.frame_id := frame;
                PointCloud.stamp := now;
                PointCloud.points := Slice.points sl;
                PointCloud.channels :=
                  [ {| name := "intensity"; values := Row.data row |} ] |}] /\
    (sector = None <-> len (Scan.slices scan') < queue).
Proof.
  intros H.
  apply turn_inv in H as (sl & kept & full & sector & cloud & Hi & Hs & Hout & Hsec & Hc & _).
  subst cloud. exists sl, kept, full, sector. auto.
Qed.

(** The first row of a log, with a queue of 2: a full scan and a point
    cloud, no sector scan. *)
Lemma turn_publishes_witness :
  exists out scan' sl kept full sector,
    Main.turn (fun _ => 1%float) (fun _ => 0%float) 2 "odom" 1 50 0x1p-1
      (Scan.__init__ 0) (Sample.row 0 3199 3201 16 0 1 [80]) 7 = (out, Ok scan') /\
    Slice.__init__ (fun _ => 1%float) (fun _ => 0%float)
      (Sample.row 0 3199 3201 16 0 1 [80]) 1 50 0x1p-1 = Ok sl /\
    Scan.slices scan' = kept ++ [sl] /\
    out = Main.Full full :: Main.publish Main.Sector sector ++
          [Main.Points
             {| PointCloud.frame_id := "odom";
                PointCloud.stamp := 7;
                PointCloud.points := Slice.points sl;
                PointCloud.channels :=
                  [ {| name := "intensity"; values := [80] |} ] |}] /\
    (sector = None <-> len (Scan.slices scan') < 2).
Proof.
  eexists. eexists.
  destruct (turn_publishes (fun _ => 1%float) (fun _ => 0%float) 2 "odom" 1 50 0x1p-1
              (Scan.__init__ 0) (Sample.row 0 3199 3201 16 0 1 [80]) 7
              _ _ ltac:(vm_compute; reflexivity))
    as (sl & kept & full & sector & H1 & H2 & H3 & H4).
  exists sl, kept, full, sector.
  split; [vm_compute; reflexivity|]. auto.
Defined.

Lemma clouds_app (a b : list Main.message) :
  Main.clouds (a ++ b) = Main.clouds a ++ Main.clouds b.
Proof. apply flat_map_app. Qed.

Lemma full_scans_app (a b : list Main.message) :
  Main.full_scans (a ++ b) = Main.full_scans a ++ Main.full_scans b.
Proof. apply flat_map_app. Qed.

Lemma sector_scans_app (a b : list Main.message) :
  Main.sector_scans (a ++ b) = Main.sector_scans a ++ Main.sector_scans b.
Proof. apply flat_map_app. Qed.

Lemma loop_inv cos sin (queue : Z) (frame : string) (md mi th : float)
  (rows : list (Row.t * Z)) :
  forall (scan scan' : Scan.t) (out : list Main.message),
    Main.loop cos sin queue frame md mi th scan rows = (out, Ok scan') ->
    map PointCloud.stamp (Main.clouds out) = map snd rows /\
    map PointCloud.channels (Main.clouds out) =
      map (fun r => [ {| name := "intensity"; values := Row.data (fst r) |} ]) rows /\
    length (Main.full_scans out) = length rows /\
    (length (Main.sector_scans out) <= length rows)%nat /\
    (Scan.reachable scan -> Scan.reachable scan').
Proof.
  induction rows as [|[row now] rows IH]; intros scan scan' out H; simpl in H.
  - injection H as <- <-. simpl. auto.
  - destruct (Main.turn cos sin queue frame md mi th scan row now)
      as [out1 [scan1|e]] eqn:Hturn; [|discriminate].
    destruct (Main.loop cos sin queue frame md mi th scan1 rows)
      as [out2 r] eqn:Hloop.
    injection H as <- ->.
    apply turn_inv in Hturn
        as (sl & kept & full & sector & cloud & _ & _ & -> & _ & -> & Hreach1).
    destruct (IH _ _ _ Hloop) as (Hstamp & Hchan & Hfull & Hsector & Hreach).
    change (Main.Full full :: ?l) with ([Main.Full full] ++ l).
    rewrite !clouds_app, !full_scans_app, !sector_scans_app, !map_app, !length_app.
    destruct sector as [s|]; simpl; rewrite ?Hstamp, ?Hchan, ?Hfull;
      (repeat split; [lia | auto]).
Qed.

(** X18: a run of the loop that ends without an exception has published one
    full scan and one point cloud per row, the point clouds in row order,
    each stamped with its clock reading and carrying its row's bins, and
    at most one sector scan per row; the scan it ends with is one that
    [add] and the projections reach from [Scan()]. *)
Theorem main_publishes cos sin (queue : Z) (frame : string) (md mi th : float)
  (start : Z) (rows : list (Row.t * Z)) (out : list Main.message) (scan' : Scan.t) :
  Main.main cos sin queue frame md mi th start rows = (out, Ok scan') ->
  map PointCloud.stamp (Main.clouds out) = map snd rows /\
  map PointCloud.channels (Main.clouds out) =
    map (fun r => [ {| name := "intensity"; values := Row.data (fst r) |} ]) rows /\
  length (Main.full_scans out) = length rows /\
  (length (Main.sector_scans out) <= length rows)%nat /\
  Scan.reachable scan'.
Proof.
  unfold Main.main. intros H.
  apply loop_inv in H as (H1 & H2 & H3 & H4 & H5).
  repeat split; try assumption. apply H5, Scan.reach_init.
Qed.

(** A log of two rows with a queue of 2: two full scans, two point
    clouds, and the sector scan of the second row. *)
Lemma main_publishes_witness :
  exists out scan',
    Main.main (fun _ => 1%float) (fun _ => 0%float) 2 "odom" 1 50 0x1p-1 0
      [(Sample.row 0 3199 3201 16 0 1 [80], 7);
       (Sample.row 1000000 3199 3201 16 0 1 [90], 8)] = (out, Ok scan') /\
    length (Main.sector_scans out) = 1%nat /\
    map PointCloud.stamp (Main.clouds out) = [7; 8] /\
    map PointCloud.channels (Main.clouds out) =
      [ [ {| name := "intensity"; values := [80] |} ];
        [ {| name := "intensity"; values := [90] |} ] ] /\
    length (Main.full_scans out) = 2%nat /\
    (length (Main.sector_scans out) <= 2)%nat /\
    Scan.reachable scan'.
Proof.
  eexists. eexists.
  split; [vm_compute; reflexivity|].
  split; [vm_compute; reflexivity|].
  apply (main_publishes (fun _ => 1%float) (fun _ => 0%float) 2 "odom" 1 50 0x1p-1 0
           [(Sample.row 0 3199 3201 16 0 1 [80], 7);
            (Sample.row 1000000 3199 3201 16 0 1 [90], 8)]).
  vm_compute; reflexivity.
Defined.

Lemma loop_stops cos sin (queue : Z) (frame : string) (md mi th : float)
  (row : Row.t) (now : Z) (rest : list (Row.t * Z)) (e : exn)
  (done : list (Row.t * Z)) :
  Slice.__init__ cos sin row md mi th = Raise e ->
  forall (scan scan1 : Scan.t) (out : list Main.message),
    Main.loop cos sin queue frame md mi th scan done = (out, Ok scan1) ->
    Main.loop cos sin queue frame md mi th scan (done ++ (row, now) :: rest)
      = (out, Raise e).
Proof.
  intros Hbad. induction done as [|[r n] done IH]; intros scan scan1 out H; simpl in *.
  - injection H as <- <-. unfold Main.turn. rewrite Hbad. reflexivity.
  - destruct (Main.turn cos sin queue frame md mi th scan r n) as [out1 [s1|e1]];
      [|discriminate].
    destruct (Main.loop cos sin queue frame md mi th s1 done) as [out2 res] eqn:Hl.
    injection H as <- ->.
    rewrite (IH _ _ _ Hl). reflexivity.
Qed.

(** X19: a row that cannot be constructed ends the run with its exception:
    nothing is published for it, the rows after it are not read, and the
    messages of the rows before it have been published. *)
Theorem main_stops_at_bad_row cos sin (queue : Z) (frame : string) (md mi th : float)
  (start : Z) (done rest : list (Row.t * Z)) (row : Row.t) (now : Z) (e : exn)
  (out : list Main.message) (scan : Scan.t) :
  Main.main cos sin queue frame md mi th start done = (out, Ok scan) ->
  Slice.__init__ cos sin row md mi th = Raise e ->
  Main.main cos sin queue frame md mi th start (done ++ (row, now) :: rest)
    = (out, Raise e).
Proof.
  unfold Main.main. intros Hdone Hbad. eapply loop_stops; eassumption.
Qed.

(** A row without bins after a good row: [ValueError] from
    [numpy.argmax], after the two messages of the first row. *)
Lemma main_stops_at_bad_row_witness :
  exists out scan,
    Main.main (fun _ => 1%float) (fun _ => 0%float) 2 "odom" 1 50 0x1p-1 0
      [(Sample.row 0 3199 3201 16 0 1 [80], 7)] = (out, Ok scan) /\
    length out = 2%nat /\
    Main.main (fun _ => 1%float) (fun _ => 0%float) 2 "odom" 1 50 0x1p-1 0
      ([(Sample.row 0 3199 3201 16 0 1 [80], 7)] ++
       (Sample.row 1000000 3199 3201 16 0 1 [], 8) ::
       [(Sample.row 2000000 3199 3201 16 0 1 [90], 9)])
    = (out, Raise ValueError).
Proof.
  eexists. eexists.
  split; [vm_compute; reflexivity|].
  split; [vm_compute; reflexivity|].
  eapply (main_stops_at_bad_row (fun _ => 1%float) (fun _ => 0%float) 2 "odom" 1 50 0x1p-1 0
           [(Sample.row 0 3199 3201 16 0 1 [80], 7)]
           [(Sample.row 2000000 3199 3201 16 0 1 [90], 9)]
           (Sample.row 1000000 3199 3201 16 0 1 []) 8 ValueError).
  - vm_compute; reflexivity.
  - vm_compute; reflexivity.
Defined.

(** ** The shape a constructed slice gives a scan *)

Lemma sfeqb_refl (x : spec_float) : x <> S754_nan -> SFeqb x x = true.
Proof.
  unfold SFeqb, SFcompare.
  destruct x as [s | [|] | | [|] m e]; intros H; try reflexivity; try contradiction.
  - rewrite Z.compare_refl, Pos.compare_cont_refl. reflexivity.
  - rewrite Z.compare_refl, Pos.compare_cont_refl. reflexivity.
Qed.

(** The range of a constructed slice is a number: a NaN makes
    [int(min_distance / self.range * self.num_bins)] raise. *)
Lemma init_range_number cos sin (row : Row.t) (md mi th : float) (self : Slice.t) :
  Slice.__init__ cos sin row md mi th = Ok self ->
  (Slice.range self =? Slice.range self)%float = true.
Proof.
  intros H.
  apply init_inv in H as (_ & _ & _ & mr & _ & Hmr & _).
  unfold Slice.min_range, fdiv in Hmr.
  destruct (is_zero (Slice.range self)); [discriminate|]. simpl in Hmr.
  rewrite eqb_spec. apply sfeqb_refl. intros Hnan.
  unfold int_of_float in Hmr.
  rewrite mul_spec, div_spec, Hnan in Hmr.
  unfold SF64mul, SF64div, SFmul, SFdiv in Hmr.
  destruct (Prim2SF md); discriminate Hmr.
Qed.

(** X20: after [add] of a constructed slice the scan has that slice's shape:
    the same slice, or one with the same six shape fields, is then
    appended and does not reset the scan. *)
Theorem add_adopts_shape cos sin (row : Row.t) (md mi th : float)
  (sl : Slice.t) (self self' : Scan.t) :
  Slice.__init__ cos sin row md mi th = Ok sl ->
  Scan.add self sl = Ok self' ->
  Scan.different_scan self' sl = false.
Proof.
  intros Hinit Hadd.
  pose proof (init_range_number _ _ _ _ _ _ _ Hinit) as Hr.
  unfold Scan.add in Hadd.
  destruct (Scan.different_scan self sl) eqn:Hd.
  - injection Hadd as <-. unfold Scan.different_scan. simpl.
    rewrite Hr, !Z.eqb_refl, Bool.eqb_reflx. reflexivity.
  - apply bind_ok in Hadd as ([|] & _ & Hadd).
    + destruct (Scan.slices self); [discriminate|].
      injection Hadd as <-. exact Hd.
    + injection Hadd as <-. exact Hd.
Qed.

(** The slice of the specification's examples, added to a fresh scan. *)
Lemma add_adopts_shape_witness :
  exists sl self',
    Slice.__init__ (fun _ => 1%float) (fun _ => 0%float) Sample.strong_row 1 50 1000
      = Ok sl /\
    Scan.add (Scan.__init__ 0) sl = Ok self' /\
    Scan.different_scan self' sl = false.
Proof.
  eexists. eexists.
  split; [vm_compute; reflexivity|].
  split; [vm_compute; reflexivity|].
  apply (add_adopts_shape (fun _ => 1%float) (fun _ => 0%float)
           Sample.strong_row 1 50 1000 _ (Scan.__init__ 0)).
  - vm_compute; reflexivity.
  - vm_compute; reflexivity.
Defined.
